(** * vscode-ruby debug adapter: a shallow embedding of [src/main.ts]

    The adapter ([MockDebugSession]) bridges the debug protocol of the editor
    and the XML stream of the [rdebug-ide] backend.  This development embeds
    the socket [data] handler, [setBreakPointsRequest], [stackTraceRequest],
    [variablesRequest] and the two promise continuations, and states the
    properties of the specification over that embedding, followed by further
    properties of the same handlers: when a request throws, how identifiers
    are given out, which request a reply reaches, and what the two
    translations answer.

    Conventions.
    - A JavaScript string is a [string]; each [ascii] stands for one UTF-16
      code unit below 256.
    - A JavaScript number that holds a line number or an identifier is a [Z];
      the unary plus on an attribute value is [to_number], whose [None]
      stands for every Number that is not an integer ([NaN], an infinity, a
      fraction): each of them indexes nothing in an array.  An array is a
      list; it has fewer than [2 ^ 32] elements, and the arithmetic on the
      numbers that index it is exact.
    - A handler is a computation of the monad [M]: it reads and updates the
      fields of the session, appends to the list of observable effects and
      either returns or throws. *)

From Stdlib Require Import ZArith Ascii String List Bool Lia.
From stdpp Require Import base option list gmap strings pretty.

Local Open Scope Z_scope.

(** ** JavaScript strings *)

Module JS.

(** [s.length] *)
Definition length (s : string) : Z := Z.of_nat (String.length s).

(** [/^pre/.test(s)]: [s] begins with the literal [pre]. *)
Fixpoint startsWith (pre s : string) : bool :=
  match pre, s with
  | EmptyString, _ => true
  | String _ _, EmptyString => false
  | String a pre', String b s' => Ascii.eqb a b && startsWith pre' s'
  end.

(** [/suf$/.test(s)] without the [m] flag: some tail of [s] is the literal
    [suf]. *)
Fixpoint endsWith (suf s : string) : bool :=
  String.eqb s suf ||
  match s with
  | EmptyString => false
  | String _ s' => endsWith suf s'
  end.

(** [s.indexOf(pat)]: the position of the first occurrence of [pat] in [s],
    or [-1]. *)
Fixpoint indexOf (s pat : string) : Z :=
  if startsWith pat s then 0
  else match s with
       | EmptyString => -1
       | String _ s' => let r := indexOf s' pat in if r <? 0 then -1 else r + 1
       end.

(** The line terminators of ECMAScript that fit in a code unit below 256:
    LF and CR.  The dot of a regular expression (no [s] flag) matches every
    code unit but these. *)
Definition isLineTerminator (c : ascii) : bool :=
  match c with
  | "010"%char | "013"%char => true
  | _ => false
  end.

(** White space of ECMAScript below 256 (TAB, VT, FF, SP, NBSP) together
    with the line terminators: what [trim] strips. *)
Definition isWhiteSpace (c : ascii) : bool :=
  match c with
  | "009"%char | "011"%char | "012"%char | " "%char | "160"%char => true
  | _ => isLineTerminator c
  end.

Fixpoint trimStart (s : string) : string :=
  match s with
  | EmptyString => EmptyString
  | String c s' => if isWhiteSpace c then trimStart s' else s
  end.

(** [trimEnd] keeps a character when it is not white space or when
    something that is not white space follows. *)
Fixpoint trimEnd (s : string) : string :=
  match s with
  | EmptyString => EmptyString
  | String c s' =>
      match trimEnd s' with
      | EmptyString => if isWhiteSpace c then EmptyString else String c EmptyString
      | t => String c t
      end
  end.

(** [s.trim()] *)
Definition trim (s : string) : string := trimEnd (trimStart s).

(** [s.split('\n')]; [cur] is the segment read so far. *)
Fixpoint split_go (cur s : string) : list string :=
  match s with
  | EmptyString => [cur]
  | String c s' =>
      if Ascii.eqb c "010"%char then cur :: split_go EmptyString s'
      else split_go (cur +:+ String c EmptyString) s'
  end.

Definition split_nl (s : string) : list string := split_go EmptyString s.

(** [parts.join(sep)] *)
Definition join (sep : string) (parts : list string) : string :=
  String.concat sep parts.

(** The concatenation of a list of chunks. *)
Definition concat (parts : list string) : string :=
  fold_right String.append EmptyString parts.

(** [arr[i]] for a number [i]: [undefined] ([None]) outside the array. *)
Definition at_index {A} (arr : list A) (i : Z) : option A :=
  if i <? 0 then None else arr !! Z.to_nat i.

(** *** Numbers

    A Number is an IEEE 754 double.  The numbers of the adapter are line
    numbers and identifiers: a [Z] stands for the Number of that value.
    Reading a Number from a string and printing one go through the
    rounding to the nearest double. *)

(** The double nearest to the positive rational [p / q], ties to the even
    significand: [Some (m, e)] stands for [m * 2 ^ e], with [e] the exponent
    of the last place (at least [-1074]); [None] is an overflow to
    [Infinity]. *)
Definition nearest (p q : Z) : option (Z * Z) :=
  let k := Z.log2 p - Z.log2 q in
  let reached := if 0 <=? k then q * 2 ^ k <=? p else q <=? p * 2 ^ (- k) in
  let e2 := if reached then k else k - 1 in
  let e := Z.max (e2 - 52) (-1074) in
  let num := if 0 <=? e then p else p * 2 ^ (- e) in
  let den := if 0 <=? e then q * 2 ^ e else q in
  let m := num / den in
  let r := num mod den in
  let m' := if (den <? 2 * r) || ((2 * r =? den) && Z.odd m) then m + 1 else m in
  if (0 <=? e) && (2 ^ 1024 <=? m' * 2 ^ e) then None else Some (m', e).

(** The integer that the double [m * 2 ^ e] is, when it is one. *)
Definition integer_of (d : Z * Z) : option Z :=
  let '(m, e) := d in
  if 0 <=? e then Some (m * 2 ^ e)
  else if m mod 2 ^ (- e) =? 0 then Some (m / 2 ^ (- e))
  else None.

(** The Number for the positive integer [n], as an integer. *)
Definition number_value (n : Z) : option Z := nearest n 1 ≫= integer_of.

(** The multiple of [10 ^ j] nearest to the Number [x] among those that
    read back as [x], for the greatest [j] that has one: the digits of
    [Number::toString], which are as few as possible and, among equally
    few, the closest to [x] (the even one on a tie). *)
Fixpoint shortest (x : Z) (j : nat) : Z :=
  let unit := 10 ^ Z.of_nat j in
  let lo := x / unit * unit in
  let hi := lo + unit in
  let reads_back c :=
    (0 <? c) && match number_value c with Some y => y =? x | None => false end in
  let next := match j with O => x | S j' => shortest x j' end in
  match reads_back lo, reads_back hi with
  | true, true =>
      if x - lo <? hi - x then lo
      else if hi - x <? x - lo then hi
      else if Z.even (lo / unit) then lo else hi
  | true, false => lo
  | false, true => hi
  | false, false => next
  end.

Fixpoint stripZeros (s : string) : string :=
  match s with
  | EmptyString => EmptyString
  | String c s' =>
      match stripZeros s' with
      | EmptyString => if Ascii.eqb c "0"%char then EmptyString else String c EmptyString
      | t => String c t
      end
  end.

(** The exponent form of a positive integer: [d.ddde+n]. *)
Definition exponential (c : Z) : string :=
  let ds := pretty c in
  let e := pretty (Z.of_nat (String.length ds) - 1) in
  match stripZeros ds with
  | EmptyString => EmptyString
  | String a EmptyString => String a EmptyString +:+ "e+" +:+ e
  | String a rest => String a (String "."%char rest) +:+ "e+" +:+ e
  end.

(** Number to string for an integer ([String(n)], as in ["test.rb:" + n]):
    the decimal digits below [10 ^ 21], the exponent form from there on.
    Below [2 ^ 53] the digits are those of [n]; from there on they are the
    shortest that read back as the Number, followed by zeros. *)
Definition number_to_string (n : Z) : string :=
  if n =? 0 then "0"
  else
    let sign := if n <? 0 then "-" else "" in
    match number_value (Z.abs n) with
    | None => sign +:+ "Infinity"
    | Some x =>
        let c := shortest x (String.length (pretty x)) in
        sign +:+ (if c <? 10 ^ 21 then pretty c else exponential c)
    end.

(** [DecimalDigits]: the value of the digits at the head of [s] after
    those of [acc], how many they are after [count], and what follows. *)
Fixpoint decimalDigits (acc count : Z) (s : string) : Z * Z * string :=
  match s with
  | EmptyString => (acc, count, s)
  | String c s' =>
      match Ascii.is_nat c with
      | Some d => decimalDigits (10 * acc + Z.of_nat d) (count + 1) s'
      | None => (acc, count, s)
      end
  end.

(** [ExponentPart], optional and up to the end of the string. *)
Definition exponentPart (s : string) : option Z :=
  match s with
  | EmptyString => Some 0
  | String c r =>
      if Ascii.eqb c "e"%char || Ascii.eqb c "E"%char then
        let '(sign, r') :=
          match r with
          | String "+"%char r' => (1, r')
          | String "-"%char r' => (-1, r')
          | _ => (1, r)
          end in
        match decimalDigits 0 0 r' with
        | (v, n, EmptyString) => if 0 <? n then Some (sign * v) else None
        | _ => None
        end
      else None
  end.

(** [StrUnsignedDecimalLiteral] other than [Infinity]: digits with an
    optional fraction and an optional exponent, one digit at least before
    or after the point.  [Some (d, x)] is the value [d * 10 ^ x]. *)
Definition unsignedDecimal (s : string) : option (Z * Z) :=
  let '(i, ni, r) := decimalDigits 0 0 s in
  match r with
  | String "."%char r1 =>
      let '(f, nf, r2) := decimalDigits i 0 r1 in
      if (0 <? ni) || (0 <? nf) then x ← exponentPart r2; Some (f, x - nf) else None
  | _ => if 0 <? ni then x ← exponentPart r; Some (i, x) else None
  end.

Definition digit_in (radix : Z) (c : ascii) : option Z :=
  d ← match c with
      | "a"%char | "A"%char => Some 10
      | "b"%char | "B"%char => Some 11
      | "c"%char | "C"%char => Some 12
      | "d"%char | "D"%char => Some 13
      | "e"%char | "E"%char => Some 14
      | "f"%char | "F"%char => Some 15
      | _ => Z.of_nat <$> Ascii.is_nat c
      end;
  if d <? radix then Some d else None.

Fixpoint radixDigits (radix acc : Z) (s : string) : option Z :=
  match s with
  | EmptyString => Some acc
  | String c s' => d ← digit_in radix c; radixDigits radix (radix * acc + d) s'
  end.

(** What a string denotes as a [StringNumericLiteral], white space apart:
    nothing, an infinity, or the value [d * 10 ^ x] with its sign. *)
Inductive Literal : Type :=
  | NotNumeric
  | InfinityLiteral (negative : bool)
  | Decimal (negative : bool) (d x : Z).

(** [NonDecimalIntegerLiteral] after its prefix: one digit at least. *)
Definition nonDecimalInteger (radix : Z) (body : string) : Literal :=
  match body with
  | EmptyString => NotNumeric
  | _ =>
      match radixDigits radix 0 body with
      | Some v => Decimal false v 0
      | None => NotNumeric
      end
  end.

(** [StrDecimalLiteral]: an optional sign, then [Infinity] or an unsigned
    decimal literal. *)
Definition decimalLiteral (t : string) : Literal :=
  let '(negative, u) :=
    match t with
    | String "-"%char u => (true, u)
    | String "+"%char u => (false, u)
    | _ => (false, t)
    end in
  if String.eqb u "Infinity" then InfinityLiteral negative
  else match unsignedDecimal u with
       | Some (d, x) => Decimal negative d x
       | None => NotNumeric
       end.

Definition numericLiteral (t : string) : Literal :=
  match t with
  | EmptyString => Decimal false 0 0
  | String "0"%char (String c body) =>
      if Ascii.eqb c "x"%char || Ascii.eqb c "X"%char then nonDecimalInteger 16 body
      else if Ascii.eqb c "o"%char || Ascii.eqb c "O"%char then nonDecimalInteger 8 body
      else if Ascii.eqb c "b"%char || Ascii.eqb c "B"%char then nonDecimalInteger 2 body
      else decimalLiteral t
  | _ => decimalLiteral t
  end.

(** Unary plus on a string ([+line.value]), when the result is an integer:
    the string is read as a [StringNumericLiteral] between white space (the
    empty string is [0]) and its value is rounded to the nearest Number.
    [None] stands for [NaN], for the infinities and for the Numbers with a
    fraction: none of them is the index of an element of an array. *)
Definition to_number (s : string) : option Z :=
  match numericLiteral (trim s) with
  | Decimal negative d x =>
      if d =? 0 then Some 0
      else
        z ← (if 0 <=? x then nearest (d * 10 ^ x) 1 else nearest d (10 ^ (- x)))
              ≫= integer_of;
        Some (if negative then - z else z)
  | _ => None
  end.

(** Node's [path.basename] (POSIX flavour): trailing slashes are dropped and
    the text after the last remaining slash is returned. *)
Fixpoint stripTrailingSlashes (s : string) : string :=
  match s with
  | EmptyString => EmptyString
  | String c s' =>
      match stripTrailingSlashes s' with
      | EmptyString => if Ascii.eqb c "/"%char then EmptyString else String c EmptyString
      | t => String c t
      end
  end.

Fixpoint afterLastSlash (cur s : string) : string :=
  match s with
  | EmptyString => cur
  | String c s' =>
      if Ascii.eqb c "/"%char then afterLastSlash EmptyString s'
      else afterLastSlash (cur +:+ String c EmptyString) s'
  end.

Definition basename (p : string) : string :=
  afterLastSlash EmptyString (stripTrailingSlashes p).

(** The newline of the string literals of the source. *)
Definition LF : string := String "010"%char EmptyString.

(** *** The regular expressions of the [data] handler

    The handler tests each chunk against literals of three shapes, none with
    a flag.  [test] is [RegExp.prototype.test] on these shapes. *)
Inductive RegExp : Type :=
  | Starts (pre : string)           (* /^pre/ *)
  | Ends (suf : string)             (* /suf$/ *)
  | Line (pre suf : string).        (* /^pre.*?suf$/ *)

(** What is left of [s] after the literal [pre]. *)
Fixpoint after_prefix (pre s : string) : option string :=
  match pre, s with
  | EmptyString, _ => Some s
  | String _ _, EmptyString => None
  | String a pre', String b s' =>
      if Ascii.eqb a b then after_prefix pre' s' else None
  end.

(** [/^.*?suf$/] on [s]: [s] is a run of characters other than line
    terminators followed by [suf], which ends the input. *)
Fixpoint dots_then (suf s : string) : bool :=
  String.eqb s suf ||
  match s with
  | EmptyString => false
  | String c s' => negb (isLineTerminator c) && dots_then suf s'
  end.

(** [/^pre.*?suf$/] on [s] *)
Definition lineMatch (pre suf s : string) : bool :=
  match after_prefix pre s with
  | Some rest => dots_then suf rest
  | None => false
  end.

Definition test (r : RegExp) (s : string) : bool :=
  match r with
  | Starts pre => startsWith pre s
  | Ends suf => endsWith suf s
  | Line pre suf => lineMatch pre suf s
  end.

End JS.


(** ** The data of the adapter *)

(** The DOM that [xmldom] builds, as far as the adapter reads it: the name,
    the attributes and the children of an element; every other node
    (character data) has no attributes. *)
#[warnings="-register-all"]
Inductive Node : Type :=
  | Element (nodeName : string) (attributes : list (string * string))
            (childNodes : list Node)
  | Text (data : string).

(** [documentElement] is [null] when the text had no root element. *)
Record XMLDocument : Type := mkXMLDocument { documentElement : option Node }.

(** ** A reference parser

    The adapter hands the reassembled text to [xmldom]; the session keeps the
    parser in its [parser] field and every theorem below holds for an
    arbitrary one.  [XML.parse] reads the fragment of XML that the backend
    prints (elements, quoted attributes, character data; no entities,
    comments or CDATA) and is the parser of the example sessions. *)

Module XML.

Inductive Token : Type :=
  | TOpen (name : string) (attrs : list (string * string))
  | TSelf (name : string) (attrs : list (string * string))
  | TClose (name : string)
  | TChars (text : string).

Definition snoc (s : string) (c : ascii) : string := s +:+ String c EmptyString.

(** The attributes of a tag: [key="value"] or [key='value'] items separated
    by white space.  [key] is the name being read, [val] the value being read
    with its quote. *)
Fixpoint attrs_go (key : string) (val : option (ascii * string))
    (acc : list (string * string)) (s : string) : list (string * string) :=
  match s with
  | EmptyString => acc
  | String c s' =>
      match val with
      | Some (q, v) =>
          if Ascii.eqb c q then attrs_go EmptyString None (acc ++ [(key, v)]) s'
          else attrs_go key (Some (q, snoc v c)) acc s'
      | None =>
          if Ascii.eqb c "034"%char || Ascii.eqb c "'"%char then attrs_go key (Some (c, EmptyString)) acc s'
          else if JS.isWhiteSpace c || Ascii.eqb c "="%char then attrs_go key None acc s'
          else attrs_go (snoc key c) None acc s'
      end
  end.

(** The name of a tag (up to the first white space) and its attributes. *)
Fixpoint name_go (name : string) (s : string) : string * list (string * string) :=
  match s with
  | EmptyString => (name, [])
  | String c s' =>
      if JS.isWhiteSpace c then (name, attrs_go EmptyString None [] s')
      else name_go (snoc name c) s'
  end.

(** The token of the text between [<] and [>]. *)
Definition tag (raw : string) : Token :=
  match raw with
  | String "/"%char name => TClose (JS.trim name)
  | _ =>
      if JS.endsWith "/" raw then
        let (n, a) := name_go EmptyString (String.substring 0 (String.length raw - 1) raw) in
        TSelf n a
      else
        let (n, a) := name_go EmptyString raw in TOpen n a
  end.

(** The tokens of a text; [intag] holds the tag being read and the quote
    that is open in it, [text] the character data being read. *)
Fixpoint lex (intag : option (string * option ascii)) (text : string) (s : string) : list Token :=
  match s with
  | EmptyString => if String.eqb text "" then [] else [TChars text]
  | String c s' =>
      match intag with
      | None =>
          if Ascii.eqb c "<"%char then
            (if String.eqb text "" then [] else [TChars text]) ++ lex (Some (EmptyString, None)) EmptyString s'
          else lex None (snoc text c) s'
      | Some (raw, Some q) =>
          lex (Some (snoc raw c, if Ascii.eqb c q then None else Some q)) text s'
      | Some (raw, None) =>
          if Ascii.eqb c ">"%char then tag raw :: lex None EmptyString s'
          else if Ascii.eqb c "034"%char || Ascii.eqb c "'"%char then lex (Some (snoc raw c, Some c)) text s'
          else lex (Some (snoc raw c, None)) text s'
      end
  end.

(** The tree of a list of tokens; [open] is the stack of elements whose end
    tag has not come, each with the children it has so far. *)
Definition add (n : Node) (open : list (string * list (string * string) * list Node))
    (roots : list Node) : list (string * list (string * string) * list Node) * list Node :=
  match open with
  | [] => ([], roots ++ [n])
  | (name, attrs, children) :: below => ((name, attrs, children ++ [n]) :: below, roots)
  end.

Fixpoint build (toks : list Token) (open : list (string * list (string * string) * list Node))
    (roots : list Node) : list Node :=
  match toks with
  | [] => roots
  | TOpen n a :: rest => build rest ((n, a, []) :: open) roots
  | TSelf n a :: rest => let (o, r) := add (Element n a []) open roots in build rest o r
  | TChars t :: rest => let (o, r) := add (Text t) open roots in build rest o r
  | TClose _ :: rest =>
      match open with
      | [] => build rest [] roots
      | (n, a, ch) :: below => let (o, r) := add (Element n a ch) below roots in build rest o r
      end
  end.

Definition is_element (n : Node) : bool :=
  match n with Element _ _ _ => true | Text _ => false end.

Definition parse (text : string) : XMLDocument :=
  mkXMLDocument (List.find is_element (build (lex None EmptyString text) [] [])).

End XML.

Record Breakpoint : Type := mkBreakpoint {
  bp_verified : bool;
  bp_line : Z;
  bp_id : Z
}.

Record Source : Type := mkSource { src_name : string; src_path : string }.

Record StackFrame : Type := mkStackFrame {
  sf_id : Z;
  sf_name : string;
  sf_source : Source;
  sf_line : Z;
  sf_column : Z
}.

Record VariableRecord : Type := mkVariable {
  var_name : string;
  var_value : string;
  var_variablesReference : Z
}.

(** A response object of the protocol, identified by the request it
    answers; its body is set by the handler before it is sent. *)
Record Response : Type := mkResponse { request_seq : Z; command : string }.

Inductive Body : Type :=
  | BreakpointsBody (breakpoints : list Breakpoint)
  | StackFramesBody (stackFrames : list StackFrame)
  | VariablesBody (variables : list VariableRecord).

Inductive Event : Type :=
  | StoppedEvent (reason : string) (threadId : Z).

Inductive DocKind : Type := Frames | Variables.

(** The continuation passed to [then]: the closure of [stackTraceRequest]
    captures the response, that of [variablesRequest] the response and the
    arguments. *)
Inductive Reaction : Type :=
  | StackTraceThen (response : Response)
  | VariablesThen (response : Response) (variablesReference : Z).

(** What a handler does to its collaborators, in the order it does it.
    The first four are writes to the outside (frontend, backend socket,
    console); then come the call into the XML parser and the calls into the
    promise machinery ([new Promise], [then], the resolver of the promise of
    a document kind); the last one is a continuation that threw. *)
Inductive Effect : Type :=
  | SendEvent (e : Event)
  | SendResponse (r : Response) (body : Body)
  | SocketWrite (data : string)
  | ConsoleLog (msg : string)
  | ParseFromString (text : string)
  | PromiseNew (p : nat)
  | PromiseThen (p : nat) (r : Reaction)
  | PromiseResolve (k : DocKind) (p : nat) (doc : XMLDocument)
  | UnhandledRejection.

(** A promise of the store: its value once resolved and the continuations
    that wait for it. *)
Record Promise : Type := mkPromise {
  settled : option XMLDocument;
  reactions : list Reaction
}.

(** The fields of [MockDebugSession] once [launchRequest] has run (the socket
    and its [data] handler exist from then on), with what they refer to: the
    store of promises, the queue of promise jobs, the files on disk, and the
    two settings inherited from [DebugSession]. *)
Record Session : Type := mkSession {
  clientLinesStartAt1 : bool;
  convertDebuggerPathToClient : string -> string;
  _breakpointId : Z;
  _sourceFile : string;
  _sourceLines : list string;
  _breakPoints : gmap string (list Breakpoint);
  stackFrameLoaded : nat;
  stackFrameLoadedPromiseResolve : nat;
  variableLoaded : nat;
  variableLoadedPromiseResolve : nat;
  buffer : string;
  parser : string -> XMLDocument;
  promises : list Promise;
  jobs : list (Reaction * XMLDocument);
  fs : gmap string string
}.

Definition THREAD_ID : Z := 1.

Definition with_breakpointId (v : Z) (s : Session) : Session :=
  mkSession (clientLinesStartAt1 s) (convertDebuggerPathToClient s) v
    (_sourceFile s) (_sourceLines s) (_breakPoints s) (stackFrameLoaded s)
    (stackFrameLoadedPromiseResolve s) (variableLoaded s)
    (variableLoadedPromiseResolve s) (buffer s) (parser s) (promises s)
    (jobs s) (fs s).

Definition with_breakPoints (v : gmap string (list Breakpoint)) (s : Session) : Session :=
  mkSession (clientLinesStartAt1 s) (convertDebuggerPathToClient s)
    (_breakpointId s) (_sourceFile s) (_sourceLines s) v (stackFrameLoaded s)
    (stackFrameLoadedPromiseResolve s) (variableLoaded s)
    (variableLoadedPromiseResolve s) (buffer s) (parser s) (promises s)
    (jobs s) (fs s).

Definition with_stackFrameLoaded (p r : nat) (s : Session) : Session :=
  mkSession (clientLinesStartAt1 s) (convertDebuggerPathToClient s)
    (_breakpointId s) (_sourceFile s) (_sourceLines s) (_breakPoints s) p r
    (variableLoaded s) (variableLoadedPromiseResolve s) (buffer s) (parser s)
    (promises s) (jobs s) (fs s).

Definition with_variableLoaded (p r : nat) (s : Session) : Session :=
  mkSession (clientLinesStartAt1 s) (convertDebuggerPathToClient s)
    (_breakpointId s) (_sourceFile s) (_sourceLines s) (_breakPoints s)
    (stackFrameLoaded s) (stackFrameLoadedPromiseResolve s) p r (buffer s)
    (parser s) (promises s) (jobs s) (fs s).

Definition with_buffer (v : string) (s : Session) : Session :=
  mkSession (clientLinesStartAt1 s) (convertDebuggerPathToClient s)
    (_breakpointId s) (_sourceFile s) (_sourceLines s) (_breakPoints s)
    (stackFrameLoaded s) (stackFrameLoadedPromiseResolve s) (variableLoaded s)
    (variableLoadedPromiseResolve s) v (parser s) (promises s) (jobs s) (fs s).

Definition with_promises (v : list Promise) (s : Session) : Session :=
  mkSession (clientLinesStartAt1 s) (convertDebuggerPathToClient s)
    (_breakpointId s) (_sourceFile s) (_sourceLines s) (_breakPoints s)
    (stackFrameLoaded s) (stackFrameLoadedPromiseResolve s) (variableLoaded s)
    (variableLoadedPromiseResolve s) (buffer s) (parser s) v (jobs s) (fs s).

Definition with_jobs (v : list (Reaction * XMLDocument)) (s : Session) : Session :=
  mkSession (clientLinesStartAt1 s) (convertDebuggerPathToClient s)
    (_breakpointId s) (_sourceFile s) (_sourceLines s) (_breakPoints s)
    (stackFrameLoaded s) (stackFrameLoadedPromiseResolve s) (variableLoaded s)
    (variableLoadedPromiseResolve s) (buffer s) (parser s) (promises s) v (fs s).

(** ** The monad of handlers *)

Inductive Exn : Type :=
  | TypeError                 (* a property of [undefined] or [null] is read *)
  | ENOENT (path : string).   (* [readFileSync] finds no file *)

Inductive outcome (A : Type) : Type :=
  | Returned (a : A)
  | Thrown (e : Exn).
Arguments Returned {A} a.
Arguments Thrown {A} e.

Record Result (A : Type) : Type := mkResult {
  res : outcome A;
  post : Session;
  emitted : list Effect
}.
Arguments mkResult {A} res post emitted.
Arguments res {A} r.
Arguments post {A} r.
Arguments emitted {A} r.

Definition M (A : Type) : Type := Session -> Result A.

Definition ret {A} (a : A) : M A := fun s => mkResult (Returned a) s [].

Definition throw {A} (e : Exn) : M A := fun s => mkResult (Thrown e) s [].

Definition bind {A B} (m : M A) (k : A -> M B) : M B := fun s =>
  let r := m s in
  match res r with
  | Returned a =>
      let r' := k a (post r) in
      mkResult (res r') (post r') (emitted r ++ emitted r')
  | Thrown e => mkResult (Thrown e) (post r) (emitted r)
  end.

Notation "x <- c ;; k" := (bind c (fun x => k))
  (at level 100, c at next level, right associativity).
Notation "c ;; k" := (bind c (fun _ => k))
  (at level 100, right associativity).

Definition gets {A} (f : Session -> A) : M A := fun s => mkResult (Returned (f s)) s [].

Definition modify (f : Session -> Session) : M unit := fun s => mkResult (Returned tt) (f s) [].

Definition emit (e : Effect) : M unit := fun s => mkResult (Returned tt) s [e].

(** An effect put before the effects of a result. *)
Definition after_effect {A} (e : Effect) (r : Result A) : Result A :=
  mkResult (res r) (post r) (e :: emitted r).

(** Reading a property of a value that may be [undefined] or [null]. *)
Definition defined {A} (o : option A) : M A :=
  match o with
  | Some a => ret a
  | None => throw TypeError
  end.

(** ** Collaborators *)

(** [DebugSession.convertClientLineToDebugger] and its inverse, of
    vscode-debugadapter, with [_debuggerLinesStartAt1] set to [true] as the
    constructor of the adapter does. *)
Definition convertClientLineToDebugger (line : Z) : M Z :=
  c <- gets clientLinesStartAt1 ;;
  ret (if c then line else line + 1).

Definition convertDebuggerLineToClient (line : Z) : M Z :=
  c <- gets clientLinesStartAt1 ;;
  ret (if c then line else line - 1).

Definition sendEvent (e : Event) : M unit := emit (SendEvent e).

Definition sendResponse (r : Response) (body : Body) : M unit :=
  emit (SendResponse r body).

(** [this.debugSocketServer.write(data)] *)
Definition socket_write (data : string) : M unit := emit (SocketWrite data).

Definition console_log (msg : string) : M unit := emit (ConsoleLog msg).

(** [readFileSync(path).toString()] *)
Definition readFileSync (path : string) : M string :=
  files <- gets fs ;;
  match files !! path with
  | Some content => ret content
  | None => throw (ENOENT path)
  end.

(** [that.parser.parseFromString(text, 'application/xml')] *)
Definition parseFromString (text : string) : M XMLDocument :=
  parse <- gets parser ;;
  emit (ParseFromString text) ;;
  ret (parse text).

(** [new Promise(resolve => ...)]: a pending promise is added to the store
    and its reference returned. *)
Definition promise_new : M nat :=
  ps <- gets promises ;;
  let p := length ps in
  modify (with_promises (ps ++ [mkPromise None []])) ;;
  emit (PromiseNew p) ;;
  ret p.

(** [promise.then(r)]: the continuation waits when the promise is pending,
    and is queued as a job when the promise already has its value. *)
Definition promise_then (p : nat) (r : Reaction) : M unit :=
  emit (PromiseThen p r) ;;
  ps <- gets promises ;;
  match ps !! p with
  | Some cell =>
      match settled cell with
      | None =>
          modify (with_promises (<[p := mkPromise None (reactions cell ++ [r])]> ps))
      | Some doc =>
          js <- gets jobs ;;
          modify (with_jobs (js ++ [(r, doc)]))
      end
  | None => ret tt
  end.

(** The resolver of promise [p] called with [doc]: a pending promise takes
    the value and its continuations are queued as jobs; a promise that has
    its value ignores the call. *)
Definition promise_resolve (k : DocKind) (p : nat) (doc : XMLDocument) : M unit :=
  emit (PromiseResolve k p doc) ;;
  ps <- gets promises ;;
  match ps !! p with
  | Some cell =>
      match settled cell with
      | None =>
          modify (with_promises (<[p := mkPromise (Some doc) []]> ps)) ;;
          js <- gets jobs ;;
          modify (with_jobs (js ++ map (fun r => (r, doc)) (reactions cell)))
      | Some _ => ret tt
      end
  | None => ret tt
  end.

(** ** The [data] handler of the backend socket (main.ts, 130-178) *)

Definition on_data (chunk : string) : M unit :=
  if JS.test (JS.Line "<breakpoint " "/>") chunk then
    sendEvent (StoppedEvent "breakpoint" THREAD_ID)
  else if JS.test (JS.Line "<suspended " "/>") chunk then
    sendEvent (StoppedEvent "step" THREAD_ID)
  else
    buf <- gets buffer ;;
    if (JS.test (JS.Starts "<frames>") chunk && negb (JS.test (JS.Ends "</frames>") chunk))
       || (JS.test (JS.Line "<frame " "/>") chunk && negb (String.eqb buf ""))
       || (JS.test (JS.Starts "<variables>") chunk && negb (JS.test (JS.Ends "</variables>") chunk))
       || (JS.test (JS.Line "<variable " "/>") chunk && negb (String.eqb buf ""))
       || (JS.test (JS.Starts "<breakpoints>") chunk && negb (JS.test (JS.Ends "</breakpoints>") chunk))
       || (JS.test (JS.Line "<breakpoint " "/>") chunk && negb (String.eqb buf ""))
    then
      modify (with_buffer (buf +:+ chunk))
    else if (JS.test (JS.Line "<variable " ">") chunk && negb (JS.test (JS.Ends "</variables>") chunk))
            || JS.test (JS.Ends "</variable>") chunk
    then
      modify (with_buffer (buf +:+ chunk))
    else if JS.test (JS.Ends "</frames>") chunk
            || JS.test (JS.Ends "</variables>") chunk
            || JS.test (JS.Ends "</breakpoints>") chunk
    then
      modify (with_buffer (buf +:+ chunk)) ;;
      (if JS.test (JS.Ends "</frames>") chunk then
         text <- gets buffer ;;
         document <- parseFromString text ;;
         resolve <- gets stackFrameLoadedPromiseResolve ;;
         promise_resolve Frames resolve document
       else if JS.test (JS.Ends "</variables>") chunk then
         console_log ("variables" +:+ JS.LF) ;;
         text <- gets buffer ;;
         console_log text ;;
         document <- parseFromString text ;;
         resolve <- gets variableLoadedPromiseResolve ;;
         promise_resolve Variables resolve document
       else ret tt) ;;
      modify (with_buffer "")
    else ret tt.

(** ** [setBreakPointsRequest] (main.ts, 213-254) *)

(** One turn of the loop over [clientLines] (225-245); the breakpoint it
    builds is the one pushed on [breakpoints]. *)
Definition breakpoint_at (lines : list string) (clientLine : Z) : M Breakpoint :=
  l <- convertClientLineToDebugger clientLine ;;
  lv <- (if l <? Z.of_nat (length lines) then
           text <- defined (JS.at_index lines (l - 1)) ;;
           let line := JS.trim text in
           let l1 := if (JS.length line =? 0) || (JS.indexOf line "+" =? 0)
                     then l + 1 else l in
           let l2 := if JS.indexOf line "-" =? 0 then l1 - 1 else l1 in
           let verified := if JS.indexOf line "lazy" <? 0 then true else false in
           ret (l2, verified)
         else ret (l, false)) ;;
  line <- convertDebuggerLineToClient (fst lv) ;;
  id <- gets _breakpointId ;;
  modify (with_breakpointId (id + 1)) ;;
  let bp := mkBreakpoint (snd lv) line id in
  let command := ["break"; "test.rb:" +:+ JS.number_to_string (bp_line bp)] in
  socket_write (JS.join " " command +:+ JS.LF) ;;
  ret bp.

Fixpoint breakpoints_loop (lines : list string) (clientLines : list Z)
    (breakpoints : list Breakpoint) : M (list Breakpoint) :=
  match clientLines with
  | [] => ret breakpoints
  | clientLine :: rest =>
      bp <- breakpoint_at lines clientLine ;;
      breakpoints_loop lines rest (breakpoints ++ [bp])
  end.

Definition setBreakPointsRequest (response : Response) (path : string)
    (clientLines : list Z) : M unit :=
  content <- readFileSync path ;;
  let lines := JS.split_nl content in
  breakpoints <- breakpoints_loop lines clientLines [] ;;
  table <- gets _breakPoints ;;
  modify (with_breakPoints (<[path := breakpoints]> table)) ;;
  sendResponse response (BreakpointsBody breakpoints).

(** ** [stackTraceRequest] (main.ts, 268-308) *)

(** [attributes.getNamedItem(name)]: the value of the first attribute of
    that name. *)
Definition getNamedItem (attrs : list (string * string)) (name : string) : option string :=
  snd <$> List.find (fun kv => String.eqb (fst kv) name) attrs.

(** [node.attributes]: [undefined] on a node that is not an element, so
    that reading an item of it throws. *)
Definition attributes_of (n : Node) : M (list (string * string)) :=
  match n with
  | Element _ attrs _ => ret attrs
  | Text _ => throw TypeError
  end.

Definition childNodes_of (n : Node) : list Node :=
  match n with
  | Element _ _ children => children
  | Text _ => []
  end.

Definition nodeName_of (n : Node) : string :=
  match n with
  | Element name _ _ => name
  | Text _ => "#text"
  end.

(** The loop over the children of the root (279-299), from index [i] with
    [frames] built so far; [break] returns what has been built. *)
Fixpoint frames_loop (childNodes : list Node) (i : Z) (frames : list StackFrame)
    : M (list StackFrame) :=
  match childNodes with
  | [] => ret frames
  | frameNode :: rest =>
      attrs <- attributes_of frameNode ;;
      let file := getNamedItem attrs "file" in
      let line := getNamedItem attrs "line" in
      fileValue <- defined file ;;
      let bn := JS.basename fileValue in
      if String.eqb bn "ruby-debug-ide.rb" || String.eqb bn "rdebug-ide" then
        ret frames
      else
        lineValue <- defined line ;;
        (* a Number that is not an integer ([NaN], an infinity, a fraction)
           indexes nothing: it ends in the same [TypeError] as a line outside
           the file *)
        n <- defined (JS.to_number lineValue) ;;
        clientLine <- convertDebuggerLineToClient n ;;
        sourceLines <- gets _sourceLines ;;
        text <- defined (JS.at_index sourceLines (clientLine - 1)) ;;
        let code := JS.trim text in
        sourceFile <- gets _sourceFile ;;
        toClient <- gets convertDebuggerPathToClient ;;
        let frame := mkStackFrame i code
                       (mkSource (JS.basename sourceFile) (toClient sourceFile))
                       clientLine 0 in
        frames_loop rest (i + 1) (frames ++ [frame])
  end.

(** The continuation of [stackFrameLoaded] (273-305). *)
Definition stackTrace_then (response : Response) (xml : XMLDocument) : M unit :=
  root <- defined (documentElement xml) ;;
  if negb (String.eqb (nodeName_of root) "frames") then ret tt
  else
    frames <- frames_loop (childNodes_of root) 0 [] ;;
    sendResponse response (StackFramesBody frames).

Definition stackTraceRequest (response : Response) : M unit :=
  p <- promise_new ;;
  modify (with_stackFrameLoaded p p) ;;
  loaded <- gets stackFrameLoaded ;;
  promise_then loaded (StackTraceThen response) ;;
  socket_write ("where" +:+ JS.LF).

(** ** [variablesRequest] (main.ts, 324-350) *)

Fixpoint variables_loop (childNodes : list Node) (variablesReference : Z)
    (variables : list VariableRecord) : M (list VariableRecord) :=
  match childNodes with
  | [] => ret variables
  | varNode :: rest =>
      attrs <- attributes_of varNode ;;
      let name := getNamedItem attrs "name" in
      let value := getNamedItem attrs "value" in
      nameValue <- defined name ;;
      valueValue <- defined value ;;
      variables_loop rest variablesReference
        (variables ++ [mkVariable nameValue valueValue variablesReference])
  end.

(** The continuation of [variableLoaded] (329-347). *)
Definition variables_then (response : Response) (variablesReference : Z)
    (xml : XMLDocument) : M unit :=
  root <- defined (documentElement xml) ;;
  variables <- variables_loop (childNodes_of root) variablesReference [] ;;
  sendResponse response (VariablesBody variables).

Definition variablesRequest (response : Response) (variablesReference : Z) : M unit :=
  p <- promise_new ;;
  modify (with_variableLoaded p p) ;;
  loaded <- gets variableLoaded ;;
  promise_then loaded (VariablesThen response variablesReference) ;;
  socket_write ("var local" +:+ JS.LF).

(** ** The event loop *)

Definition run_reaction (r : Reaction) (doc : XMLDocument) : M unit :=
  match r with
  | StackTraceThen response => stackTrace_then response doc
  | VariablesThen response ref => variables_then response ref doc
  end.

(** A continuation that throws rejects the promise that [then] returned,
    which nobody holds. *)
Definition settle (m : M unit) : M unit := fun s =>
  let r := m s in
  match res r with
  | Returned _ => r
  | Thrown _ => mkResult (Returned tt) (post r) (emitted r ++ [UnhandledRejection])
  end.

Fixpoint run_jobs (js : list (Reaction * XMLDocument)) : M unit :=
  match js with
  | [] => ret tt
  | (r, doc) :: rest => settle (run_reaction r doc) ;; run_jobs rest
  end.

(** The promise jobs run when the handler has returned; no continuation of
    the adapter queues a further job. *)
Definition drain : M unit :=
  js <- gets jobs ;;
  modify (with_jobs []) ;;
  run_jobs js.

(** One [data] event of the socket. *)
Definition deliver (chunk : string) : M unit :=
  on_data chunk ;;
  drain.

(** The [data] events of a sequence of chunks, in order. *)
Fixpoint feed (chunks : list string) : M unit :=
  match chunks with
  | [] => ret tt
  | chunk :: rest => deliver chunk ;; feed rest
  end.


(** * The vocabulary of the statements *)

(** ** Occurrences *)

(** [pat] occurs in [s]. *)
Definition occurs (pat s : string) : Prop :=
  exists a b, s = a +:+ pat +:+ b.

(** ** The language of a regular expression *)

(** [JS.test] reads the three shapes of [JS.RegExp] through prefix and
    suffix tests.  [pattern_of] gives each shape as the regular expression
    of the source and [accepts] the meaning of [RegExp.prototype.test] for
    it; [test_accepts] relates the two. *)
Inductive Re : Type :=
  | Chr (c : ascii)            (* a literal character *)
  | Dot                        (* [.]: any character but a line terminator *)
  | Eps                        (* the empty pattern *)
  | Cat (r1 r2 : Re)           (* [r1] then [r2] *)
  | Star (r : Re).             (* [r*] and [r*?]: zero or more times *)

Inductive matches : Re -> string -> Prop :=
  | matches_chr c : matches (Chr c) (String c "")
  | matches_dot c : JS.isLineTerminator c = false -> matches Dot (String c "")
  | matches_eps : matches Eps ""
  | matches_cat r1 r2 a b : matches r1 a -> matches r2 b -> matches (Cat r1 r2) (a +:+ b)
  | matches_star_stop r : matches (Star r) ""
  | matches_star_more r a b : matches r a -> matches (Star r) b -> matches (Star r) (a +:+ b).

(** The characters of a literal, one after the other. *)
Fixpoint lit (s : string) : Re :=
  match s with
  | EmptyString => Eps
  | String c s' => Cat (Chr c) (lit s')
  end.

(** A pattern: its body, and whether [^] begins it and [$] ends it. *)
Record Pattern : Type := mkPattern { from_start : bool; body : Re; to_end : bool }.

(** [test] without flags: some part of the input matches the body, at the
    beginning of the input under [^] and up to its end under [$]. *)
Definition accepts (p : Pattern) (s : string) : Prop :=
  exists before m after,
    s = before +:+ m +:+ after /\ matches (body p) m /\
    (from_start p = true -> before = "") /\
    (to_end p = true -> after = "").

Definition pattern_of (r : JS.RegExp) : Pattern :=
  match r with
  | JS.Starts pre => mkPattern true (lit pre) false
  | JS.Ends suf => mkPattern false (lit suf) true
  | JS.Line pre suf => mkPattern true (Cat (lit pre) (Cat (Star Dot) (lit suf))) true
  end.

(** A run of characters none of which is a line terminator. *)
Fixpoint one_line (s : string) : bool :=
  match s with
  | EmptyString => true
  | String c s' => negb (JS.isLineTerminator c) && one_line s'
  end.

(** ** The [data] handler in cases *)

(** A chunk that the handler dispatches as an event. *)
Definition is_event (chunk : string) : bool :=
  JS.lineMatch "<breakpoint " "/>" chunk || JS.lineMatch "<suspended " "/>" chunk.

Definition stopped_reason (chunk : string) : string :=
  if JS.lineMatch "<breakpoint " "/>" chunk then "breakpoint" else "step".

(** The conditions of the two branches that append the chunk to the
    buffer (143-159). *)
Definition appends (buf chunk : string) : bool :=
  ((JS.startsWith "<frames>" chunk && negb (JS.endsWith "</frames>" chunk))
   || (JS.lineMatch "<frame " "/>" chunk && negb (String.eqb buf ""))
   || (JS.startsWith "<variables>" chunk && negb (JS.endsWith "</variables>" chunk))
   || (JS.lineMatch "<variable " "/>" chunk && negb (String.eqb buf ""))
   || (JS.startsWith "<breakpoints>" chunk && negb (JS.endsWith "</breakpoints>" chunk))
   || (JS.lineMatch "<breakpoint " "/>" chunk && negb (String.eqb buf "")))
  || ((JS.lineMatch "<variable " ">" chunk && negb (JS.endsWith "</variables>" chunk))
      || JS.endsWith "</variable>" chunk).

(** The session after the resolver of promise [p] is called with [doc]. *)
Definition resolve_in (p : nat) (doc : XMLDocument) (s : Session) : Session :=
  match promises s !! p with
  | Some cell =>
      match settled cell with
      | None =>
          with_jobs (jobs s ++ map (fun r => (r, doc)) (reactions cell))
            (with_promises (<[p := mkPromise (Some doc) []]> (promises s)) s)
      | Some _ => s
      end
  | None => s
  end.

(** The result of the branch that completes a document of kind [k] with
    the chunk [chunk], [logs] being what it prints first. *)
Definition completed (k : DocKind) (p : nat) (logs : list Effect) (chunk : string)
    (s : Session) : Result unit :=
  let text := buffer s +:+ chunk in
  let doc := parser s text in
  mkResult (Returned tt)
    (with_buffer "" (resolve_in p doc (with_buffer text s)))
    (logs ++ [ParseFromString text; PromiseResolve k p doc]).

(** ** Kinds of effects *)

Definition is_send_event (e : Effect) : bool :=
  match e with SendEvent _ => true | _ => false end.

(** An effect of the reassembly: a text parsed or a promise resolved. *)
Definition is_reassembly (e : Effect) : bool :=
  match e with ParseFromString _ | PromiseResolve _ _ _ => true | _ => false end.

(** An effect that a continuation may have: a response or a rejection. *)
Definition is_answer (e : Effect) : bool :=
  match e with SendResponse _ _ | UnhandledRejection => true | _ => false end.

Definition stopped_event (chunk : string) : Effect :=
  SendEvent (StoppedEvent (stopped_reason chunk) THREAD_ID).

(** ** Chunks aligned with the elements of a document *)










(** The resolver that the session holds for a kind of document. *)
Definition resolver (k : DocKind) (s : Session) : nat :=
  match k with
  | Frames => stackFrameLoadedPromiseResolve s
  | Variables => variableLoadedPromiseResolve s
  end.

(** The parses and the resolutions among the effects, in order. *)
Definition reassembly (effs : list Effect) : list Effect :=
  List.filter is_reassembly effs.


(** ** [setBreakPointsRequest] as a function *)

Definition toDebugger (startAt1 : bool) (line : Z) : Z :=
  if startAt1 then line else line + 1.

Definition toClient (startAt1 : bool) (line : Z) : Z :=
  if startAt1 then line else line - 1.

(** The verified flag and the line of the breakpoint built for
    [clientLine], as a function of the lines of the file; [None] when the
    turn throws. *)
Definition located (startAt1 : bool) (lines : list string) (clientLine : Z)
    : option (bool * Z) :=
  let l := toDebugger startAt1 clientLine in
  if l <? Z.of_nat (length lines) then
    text ← JS.at_index lines (l - 1);
    let line := JS.trim text in
    let l1 := if (JS.length line =? 0) || (JS.indexOf line "+" =? 0) then l + 1 else l in
    let l2 := if JS.indexOf line "-" =? 0 then l1 - 1 else l1 in
    Some (if JS.indexOf line "lazy" <? 0 then true else false, toClient startAt1 l2)
  else Some (false, toClient startAt1 l).

Definition break_command (line : Z) : string :=
  "break test.rb:" +:+ JS.number_to_string line +:+ JS.LF.

(** The breakpoints built from the located lines, numbered from [id]. *)
Fixpoint numbered (id : Z) (rs : list (bool * Z)) : list Breakpoint :=
  match rs with
  | [] => []
  | (v, line) :: rest => mkBreakpoint v line id :: numbered (id + 1) rest
  end.

Definition break_writes (rs : list (bool * Z)) : list Effect :=
  map (fun r => SocketWrite (break_command (snd r))) rs.

(** [setBreakPointsRequest] returns and its response carries [bps]. *)
Definition returns_breakpoints (response : Response) (path : string)
    (clientLines : list Z) (s : Session) (bps : list Breakpoint) : Prop :=
  let r := setBreakPointsRequest response path clientLines s in
  res r = Returned tt /\
  last (emitted r) = Some (SendResponse response (BreakpointsBody bps)).

(** Every requested line has a positive debugger line number. *)
Definition positive_lines (startAt1 : bool) (clientLines : list Z) : bool :=
  forallb (fun cl => 0 <? toDebugger startAt1 cl) clientLines.

(** The claim C3 as the specification words it, at one request: the
    breakpoint of an in-bounds line is verified exactly when the trimmed
    text of the line it was moved to has no occurrence of "lazy". *)
Definition verified_by_adjusted_line (response : Response) (path : string)
    (clientLines : list Z) (s : Session) : Prop :=
  forall bps content i cl bp text,
    returns_breakpoints response path clientLines s bps ->
    fs s !! path = Some content ->
    clientLines !! i = Some cl ->
    0 < toDebugger (clientLinesStartAt1 s) cl < Z.of_nat (length (JS.split_nl content)) ->
    bps !! i = Some bp ->
    JS.at_index (JS.split_nl content)
      (toDebugger (clientLinesStartAt1 s) (bp_line bp) - 1) = Some text ->
    (bp_verified bp = true <-> ~ occurs "lazy" (JS.trim text)).

(** ** The frames of a document *)

(** The base name of the [file] attribute of a node. *)
Definition file_basename (n : Node) : option string :=
  match n with
  | Element _ attrs _ => JS.basename <$> getNamedItem attrs "file"
  | Text _ => None
  end.

Definition is_internal (bn : string) : bool :=
  String.eqb bn "ruby-debug-ide.rb" || String.eqb bn "rdebug-ide".

(** The number in the [line] attribute of a node. *)
Definition line_number (n : Node) : option Z :=
  match n with
  | Element _ attrs _ => getNamedItem attrs "line" ≫= JS.to_number
  | Text _ => None
  end.

(** The source line that labels a frame at debugger line [n]. *)
Definition label_of (s : Session) (n : Z) : option string :=
  JS.at_index (_sourceLines s) (toClient (clientLinesStartAt1 s) n - 1).

(** The frame built at index [i] for debugger line [n] with label [text]. *)
Definition frame_at (s : Session) (i n : Z) (text : string) : StackFrame :=
  mkStackFrame i (JS.trim text)
    (mkSource (JS.basename (_sourceFile s))
       (convertDebuggerPathToClient s (_sourceFile s)))
    (toClient (clientLinesStartAt1 s) n) 0.

(** The frames built from index [i] on for the debugger lines and labels
    of [kept]. *)
Fixpoint frames_from (s : Session) (i : Z) (kept : list (Z * string)) : list StackFrame :=
  match kept with
  | [] => []
  | (n, text) :: rest => frame_at s i n text :: frames_from s (i + 1) rest
  end.

(** A node that the loop keeps, with its debugger line and its label. *)
Definition kept_as (s : Session) (node : Node) (nt : Z * string) : Prop :=
  exists bn,
    file_basename node = Some bn /\ is_internal bn = false /\
    line_number node = Some (fst nt) /\ label_of s (fst nt) = Some (snd nt).


(** ** Example sessions *)

(** The session that [launchRequest] leaves for [program] with the given
    text, other files [files] being on disk: counters and tables as the
    class initialises them, the two promises of [launchRequest] pending. *)
Definition launched (startAt1 : bool) (files : gmap string string)
    (program content : string) : Session :=
  mkSession startAt1 (fun p => p) 1000 program (JS.split_nl content) ∅
    0 0 1 1 "" XML.parse [mkPromise None []; mkPromise None []] []
    (<[program := content]> files).

Definition file_of (lines : list string) : string := JS.join JS.LF lines.

Definition response_of (seq : Z) (cmd : string) : Response := mkResponse seq cmd.

Definition five_lines : list string := ["a"; ""; "+b"; "-c"; "lazy_var = 1"].

(** A session in which two files already have breakpoints. *)
Definition two_paths : Session :=
  with_breakPoints
    {[ "/u/user.rb" := [mkBreakpoint true 3 1000; mkBreakpoint true 4 1001];
       "/u/other.rb" := [mkBreakpoint true 1 1002] ]}
    (with_breakpointId 1003
       (launched true {[ "/u/other.rb" := "x" ]} "/u/user.rb" (file_of five_lines))).

(** A session that still holds a breakpoint for [/u/gone.rb], a file that
    is no longer on disk. *)
Definition stale_path : Session :=
  with_breakPoints {[ "/u/gone.rb" := [mkBreakpoint true 1 1000] ]}
    (with_breakpointId 1001 (launched true ∅ "/u/user.rb" (file_of five_lines))).



(** The program and a backtrace through its lines 4 and 2. *)
Definition greeter : Session :=
  launched true ∅ "/app/user.rb"
    (file_of ["def greet"; "  puts 'hi'"; "end"; "greet"]).

Definition frames_of_greeter : XMLDocument :=
  XML.parse ("<frames><frame no='1' file='/app/user.rb' line='2' current='true' />"
             +:+ "<frame no='2' file='/app/user.rb' line='4' />"
             +:+ "<frame no='3' file='/gems/ruby-debug-ide/lib/ruby-debug-ide.rb' line='90' />"
             +:+ "<frame no='4' file='/gems/ruby-debug-ide/bin/rdebug-ide' line='30' />"
             +:+ "</frames>").

(** The session of [greeter] once a stack trace has been requested. *)
Definition greeter_waiting : Session :=
  post (stackTraceRequest (response_of 9 "stackTrace") greeter).

(** The reply to [where], one element per chunk. *)
Definition frames_chunks : list string :=
  ["<frames>";
   "<frame no='1' file='/app/user.rb' line='2' current='true' />";
   "<frame no='2' file='/app/user.rb' line='4' />";
   "<frame no='3' file='/gems/ruby-debug-ide/lib/ruby-debug-ide.rb' line='90' />";
   "</frames>"].

(** The same reply with two events between its chunks. *)
Definition frames_chunks_with_events : list string :=
  ["<frames>";
   "<suspended file='/app/user.rb' line='2' threadId='1' frames='2'/>";
   "<frame no='1' file='/app/user.rb' line='2' current='true' />";
   "<frame no='2' file='/app/user.rb' line='4' />";
   "<breakpoint file='/app/user.rb' line='4' threadId='1'/>";
   "<frame no='3' file='/gems/ruby-debug-ide/lib/ruby-debug-ide.rb' line='90' />";
   "</frames>"].

(** ** Further vocabulary: breakpoints *)


(** ** Further vocabulary: replies and their continuations *)

(** The continuations that wait on promise [p]: those of a pending
    promise; none once the promise has its value, and none on a reference
    that is not in the store. *)
Definition waiting (p : nat) (s : Session) : list Reaction :=
  match promises s !! p with
  | Some cell =>
      match settled cell with
      | None => reactions cell
      | Some _ => []
      end
  | None => []
  end.



(** The request that asks for a document of kind [k], and the continuation
    it registers. *)
Definition request_of (k : DocKind) (response : Response) (ref : Z) : M unit :=
  match k with
  | Frames => stackTraceRequest response
  | Variables => variablesRequest response ref
  end.

Definition reaction_of (k : DocKind) (response : Response) (ref : Z) : Reaction :=
  match k with
  | Frames => StackTraceThen response
  | Variables => VariablesThen response ref
  end.



(** The response that a continuation answers. *)
Definition response_of_reaction (r : Reaction) : Response :=
  match r with
  | StackTraceThen response => response
  | VariablesThen response _ => response
  end.

(** ** Further vocabulary: a run of the adapter *)

(** What the adapter is given, one handler at a time: a request of the
    client that asks the debugger for a document, or a chunk from the
    socket.  The promise jobs run when the handler has returned. *)
Inductive Input :=
  | Request (k : DocKind) (response : Response) (ref : Z)
  | Chunk (chunk : string).

Definition handle (i : Input) : M unit :=
  match i with
  | Request k response ref => request_of k response ref ;; drain
  | Chunk chunk => deliver chunk
  end.

Fixpoint handle_all (inputs : list Input) : M unit :=
  match inputs with
  | [] => ret tt
  | i :: rest => handle i ;; handle_all rest
  end.

Definition resolves (p : nat) (e : Effect) : bool :=
  match e with
  | PromiseResolve _ q _ => Nat.eqb p q
  | _ => false
  end.

Definition other_kind (k : DocKind) : DocKind :=
  match k with Frames => Variables | Variables => Frames end.

(** Promise [p], made for a document of kind [k], is pending with the
    continuations [rs], and the resolver that the session holds for the
    other kind is not its own. *)
Definition pending_for (k : DocKind) (p : nat) (rs : list Reaction) (s : Session) : Prop :=
  jobs s = [] /\
  (exists cell, promises s !! p = Some cell /\ settled cell = None /\ reactions cell = rs) /\
  resolver (other_kind k) s <> p.

(** Promise [p] is pending with the continuations [rs] and no resolver
    that the session holds is its own. *)
Definition orphan (p : nat) (rs : list Reaction) (s : Session) : Prop :=
  jobs s = [] /\
  (exists cell, promises s !! p = Some cell /\ settled cell = None /\ reactions cell = rs) /\
  resolver Frames s <> p /\ resolver Variables s <> p.

(** ** Further vocabulary: the answers of the two translations *)

(** The variable that a child of the root stands for: none for a text
    node, and none for an element without a [name] or a [value]. *)
Definition variable_of (ref : Z) (n : Node) : option VariableRecord :=
  match n with
  | Element _ attrs _ =>
      name ← getNamedItem attrs "name";
      value ← getNamedItem attrs "value";
      Some (mkVariable name value ref)
  | Text _ => None
  end.

(** What is sent for a response once the continuation has run and the
    promise of [then] has settled. *)
Definition answered (response : Response) (body : option Body) : list Effect :=
  match body with
  | Some b => [SendResponse response b]
  | None => [UnhandledRejection]
  end.

(** The frames that the children [nodes] of the root stand for, numbered
    from [i]: those before the first internal frame, or none at all when a
    child before it is a text node, lacks a [file], or has a [line] that
    unary plus does not read as an integer [n] with an element of the
    cached lines at index [convertDebuggerLineToClient n - 1]. *)
Fixpoint frames_of (s : Session) (i : Z) (nodes : list Node) : option (list StackFrame) :=
  match nodes with
  | [] => Some []
  | node :: rest =>
      bn ← file_basename node;
      if is_internal bn then Some []
      else
        n ← line_number node;
        text ← label_of s n;
        frames ← frames_of s (i + 1) rest;
        Some (frame_at s i n text :: frames)
  end.

(** The source of every frame that the adapter reports: the program that
    was launched. *)
Definition program_source (s : Session) : Source :=
  mkSource (JS.basename (_sourceFile s)) (convertDebuggerPathToClient s (_sourceFile s)).

(** * Lemmas and theorems *)

(** ** Facts on strings *)

Lemma startsWith_app pre r : JS.startsWith pre (pre +:+ r) = true.
Proof.
  induction pre as [|a pre IH]; simpl; [destruct r; reflexivity|].
  rewrite Ascii.eqb_refl. exact IH.
Qed.

Lemma startsWith_inv pre : forall s,
  JS.startsWith pre s = true -> exists r, s = pre +:+ r.
Proof.
  induction pre as [|a pre IH]; intros s H.
  - exists s. reflexivity.
  - destruct s as [|b s]; simpl in H; [discriminate|].
    apply andb_true_iff in H as [Hab H]. apply Ascii.eqb_eq in Hab as ->.
    destruct (IH s H) as [r ->]. exists r. reflexivity.
Qed.

Lemma append_empty_l s : "" +:+ s = s.
Proof. reflexivity. Qed.

Lemma append_cons c a s : String c a +:+ s = String c (a +:+ s).
Proof. reflexivity. Qed.


(** [indexOf] is negative exactly when there is no occurrence. *)
Lemma indexOf_negative s pat : JS.indexOf s pat < 0 <-> ~ occurs pat s.
Proof.
  induction s as [|c s IH]; simpl.
  - destruct (JS.startsWith pat "") eqn:E.
    + split; [lia|]. intros H. exfalso. apply H.
      apply startsWith_inv in E as [r E]. exists "", r. exact E.
    + split; [|lia]. intros _ (a & b & H).
      destruct a; [|discriminate]. rewrite append_empty_l in H.
      rewrite H, startsWith_app in E. discriminate.
  - destruct (JS.startsWith pat (String c s)) eqn:E.
    + split; [lia|]. intros H. exfalso. apply H.
      apply startsWith_inv in E as [r E]. exists "", r. exact E.
    + destruct (JS.indexOf s pat <? 0) eqn:Hr.
      * apply Z.ltb_lt in Hr. split; [|lia]. intros _ (a & b & H).
        destruct a as [|a0 a].
        -- rewrite append_empty_l in H. rewrite H, startsWith_app in E. discriminate.
        -- rewrite append_cons in H. injection H as -> H. apply IH in Hr. apply Hr. exists a, b. exact H.
      * apply Z.ltb_ge in Hr. split; [lia|]. intros H. exfalso.
        assert (Hn : ~ occurs pat s).
        { intros (a & b & ->). apply H. exists (String c a), b. reflexivity. }
        apply IH in Hn. lia.
Qed.


Lemma append_empty_r a : a +:+ "" = a.
Proof. induction a as [|x a IH]; [reflexivity|]. rewrite append_cons, IH. reflexivity. Qed.


(** Two literals that both begin [s] are comparable. *)
Lemma startsWith_disjoint p : forall q s,
  JS.startsWith p s = true ->
  JS.startsWith p q || JS.startsWith q p = false ->
  JS.startsWith q s = false.
Proof.
  induction p as [|a p IH]; intros q s Hp Hd.
  - destruct q; discriminate.
  - destruct s as [|b s]; [discriminate|]. simpl in Hp.
    apply andb_true_iff in Hp as [Hab Hp]. apply Ascii.eqb_eq in Hab as <-.
    destruct q as [|d q]; [simpl in Hd; discriminate|].
    simpl in Hd |- *. rewrite (Ascii.eqb_sym a d) in Hd.
    destruct (Ascii.eqb d a); [|reflexivity]. simpl in *.
    apply (IH q s Hp Hd).
Qed.

Lemma endsWith_empty suf : JS.endsWith suf "" = String.eqb "" suf.
Proof. apply orb_false_r. Qed.

Lemma endsWith_String suf c s :
  JS.endsWith suf (String c s) = String.eqb (String c s) suf || JS.endsWith suf s.
Proof. reflexivity. Qed.

Lemma dots_then_String suf c s :
  JS.dots_then suf (String c s) =
  String.eqb (String c s) suf || negb (JS.isLineTerminator c) && JS.dots_then suf s.
Proof. reflexivity. Qed.

Lemma endsWith_refl s : JS.endsWith s s = true.
Proof.
  destruct s; [reflexivity|]. rewrite endsWith_String, String.eqb_refl. reflexivity.
Qed.

Lemma endsWith_cons suf c s : JS.endsWith suf s = true -> JS.endsWith suf (String c s) = true.
Proof. intros H. rewrite endsWith_String, H. apply orb_true_r. Qed.

Lemma endsWith_append suf a s : JS.endsWith suf s = true -> JS.endsWith suf (a +:+ s) = true.
Proof.
  intros H. induction a as [|x a IH]; [exact H|]. rewrite append_cons. apply endsWith_cons, IH.
Qed.

Lemma endsWith_inv suf : forall s, JS.endsWith suf s = true -> exists a, s = a +:+ suf.
Proof.
  induction s as [|c s IH]; intros H.
  - rewrite endsWith_empty in H. apply String.eqb_eq in H as <-. exists "". reflexivity.
  - rewrite endsWith_String in H. apply orb_true_iff in H as [H|H].
    + apply String.eqb_eq in H as <-. exists "". reflexivity.
    + destruct (IH H) as [a ->]. exists (String c a). reflexivity.
Qed.

(** Two literals that both end [s] are comparable. *)
Lemma endsWith_disjoint p q : forall s,
  JS.endsWith p s = true ->
  JS.endsWith p q || JS.endsWith q p = false ->
  JS.endsWith q s = false.
Proof.
  intros s Hp Hd. destruct (JS.endsWith q s) eqn:Hq; [|reflexivity].
  exfalso. apply orb_false_iff in Hd as [Hpq Hqp].
  induction s as [|c s IH].
  - rewrite endsWith_empty in Hp, Hq.
    apply String.eqb_eq in Hp as <-. apply String.eqb_eq in Hq as <-.
    discriminate.
  - rewrite endsWith_String in Hp, Hq.
    apply orb_true_iff in Hp as [Hp|Hp]; apply orb_true_iff in Hq as [Hq|Hq].
    + apply String.eqb_eq in Hp as <-. apply String.eqb_eq in Hq as <-.
      rewrite endsWith_refl in Hpq. discriminate.
    + apply String.eqb_eq in Hp as <-. rewrite (endsWith_cons _ _ _ Hq) in Hqp. discriminate.
    + apply String.eqb_eq in Hq as <-. rewrite (endsWith_cons _ _ _ Hp) in Hpq. discriminate.
    + exact (IH Hp Hq).
Qed.

Lemma after_prefix_startsWith pre : forall s,
  JS.startsWith pre s = match JS.after_prefix pre s with Some _ => true | None => false end.
Proof.
  induction pre as [|a pre IH]; intros s; [reflexivity|].
  destruct s as [|b s]; [reflexivity|]. simpl.
  destruct (Ascii.eqb a b); [apply IH|reflexivity].
Qed.

Lemma after_prefix_inv pre : forall s rest,
  JS.after_prefix pre s = Some rest -> s = pre +:+ rest.
Proof.
  induction pre as [|a pre IH]; intros s rest H.
  - injection H as ->. reflexivity.
  - destruct s as [|b s]; [discriminate|]. simpl in H.
    destruct (Ascii.eqb_spec a b) as [->|]; [|discriminate].
    rewrite (IH _ _ H). reflexivity.
Qed.

Lemma dots_then_endsWith suf : forall s, JS.dots_then suf s = true -> JS.endsWith suf s = true.
Proof.
  induction s as [|c s IH]; intros H; [exact H|].
  rewrite dots_then_String in H. rewrite endsWith_String.
  apply orb_true_iff in H as [H|H]; [rewrite H; reflexivity|].
  apply andb_true_iff in H as [_ H]. rewrite (IH H). apply orb_true_r.
Qed.

(** A chunk that matches [/^pre.*?suf$/] begins with [pre] and ends with
    [suf]. *)
Lemma lineMatch_startsWith pre suf s :
  JS.lineMatch pre suf s = true -> JS.startsWith pre s = true.
Proof.
  unfold JS.lineMatch. rewrite after_prefix_startsWith.
  destruct (JS.after_prefix pre s); [reflexivity|discriminate].
Qed.

Lemma lineMatch_endsWith pre suf s :
  JS.lineMatch pre suf s = true -> JS.endsWith suf s = true.
Proof.
  unfold JS.lineMatch. destruct (JS.after_prefix pre s) as [rest|] eqn:E; [|discriminate].
  intros H. rewrite (after_prefix_inv _ _ _ E). apply endsWith_append, dots_then_endsWith, H.
Qed.

Lemma lineMatch_not_start pre suf s :
  JS.startsWith pre s = false -> JS.lineMatch pre suf s = false.
Proof.
  intros H. destruct (JS.lineMatch pre suf s) eqn:E; [|reflexivity].
  rewrite (lineMatch_startsWith _ _ _ E) in H. discriminate.
Qed.

Lemma lineMatch_not_end pre suf s :
  JS.endsWith suf s = false -> JS.lineMatch pre suf s = false.
Proof.
  intros H. destruct (JS.lineMatch pre suf s) eqn:E; [|reflexivity].
  rewrite (lineMatch_endsWith _ _ _ E) in H. discriminate.
Qed.


(** ** [JS.test] and the language of the patterns *)

Lemma matches_lit s : matches (lit s) s.
Proof.
  induction s as [|c s IH]; [constructor|].
  change (String c s) with (String c "" +:+ s). constructor; [constructor|exact IH].
Qed.

Lemma matches_lit_inv s : forall m, matches (lit s) m -> m = s.
Proof.
  induction s as [|c s IH]; intros m H; simpl in H.
  - inversion H. reflexivity.
  - inversion H as [| | |r1 r2 a b Ha Hb| |]; subst.
    inversion Ha; subst. rewrite (IH _ Hb). reflexivity.
Qed.

Lemma matches_dots s : one_line s = true -> matches (Star Dot) s.
Proof.
  induction s as [|c s IH]; intros H; [constructor|].
  simpl in H. apply andb_true_iff in H as [Hc H]. apply negb_true_iff in Hc.
  change (String c s) with (String c "" +:+ s).
  apply matches_star_more; [constructor; exact Hc|exact (IH H)].
Qed.

Lemma matches_dots_inv s : matches (Star Dot) s -> one_line s = true.
Proof.
  intros H. remember (Star Dot) as r eqn:Hr.
  induction H as [| | | |r|r a b Ha _ Hb IHb]; try discriminate; [reflexivity|].
  injection Hr as ->. inversion Ha; subst.
  rewrite append_cons, append_empty_l. simpl.
  rewrite IHb by reflexivity.
  match goal with H : JS.isLineTerminator _ = false |- _ => rewrite H end. reflexivity.
Qed.

Lemma dots_then_spec suf : forall s,
  JS.dots_then suf s = true <-> exists d, s = d +:+ suf /\ one_line d = true.
Proof.
  induction s as [|c s IH].
  - change (JS.dots_then suf "") with (String.eqb "" suf || false).
    rewrite orb_false_r. split.
    + intros H. apply String.eqb_eq in H as <-. exists "". split; reflexivity.
    + intros (d & H & _). destruct d; [|discriminate].
      rewrite append_empty_l in H. subst suf. reflexivity.
  - rewrite dots_then_String. split.
    + intros H. apply orb_true_iff in H as [H|H].
      * apply String.eqb_eq in H as <-. exists "". split; reflexivity.
      * apply andb_true_iff in H as [Hc H]. apply IH in H as (d & -> & Hd).
        exists (String c d). split; [reflexivity|]. simpl. rewrite Hc, Hd. reflexivity.
    + intros (d & H & Hd). destruct d as [|x d].
      * rewrite append_empty_l in H. subst suf. rewrite String.eqb_refl. reflexivity.
      * rewrite append_cons in H. injection H as <- ->. simpl in Hd.
        apply andb_true_iff in Hd as [Hc Hd]. rewrite Hc.
        assert (JS.dots_then suf (d +:+ suf) = true) as -> by (apply IH; eauto).
        apply orb_true_r.
Qed.

Lemma after_prefix_app pre r : JS.after_prefix pre (pre +:+ r) = Some r.
Proof.
  induction pre as [|c pre IH]; [destruct r; reflexivity|].
  rewrite append_cons. simpl. rewrite Ascii.eqb_refl. exact IH.
Qed.

(** [JS.test] decides the language of the pattern. *)
Theorem test_accepts r s : JS.test r s = true <-> accepts (pattern_of r) s.
Proof.
  destruct r as [pre|suf|pre suf]; unfold accepts; cbn [JS.test pattern_of from_start body to_end].
  - split.
    + intros H. apply startsWith_inv in H as [rest ->].
      exists "", pre, rest. repeat split; [apply matches_lit|discriminate].
    + intros (b & m & a & -> & Hm & Hb & _). rewrite (Hb eq_refl), append_empty_l.
      rewrite (matches_lit_inv _ _ Hm). apply startsWith_app.
  - split.
    + intros H. apply endsWith_inv in H as [b ->].
      exists b, suf, "". rewrite append_empty_r.
      repeat split; [apply matches_lit|discriminate].
    + intros (b & m & a & -> & Hm & _ & Ha). rewrite (Ha eq_refl), append_empty_r.
      rewrite (matches_lit_inv _ _ Hm). apply endsWith_append, endsWith_refl.
  - unfold JS.lineMatch. split.
    + destruct (JS.after_prefix pre s) as [rest|] eqn:E; [|discriminate].
      intros H. apply dots_then_spec in H as (d & -> & Hd).
      apply after_prefix_inv in E as ->.
      exists "", (pre +:+ d +:+ suf), "". rewrite append_empty_r.
      repeat split.
      constructor; [apply matches_lit|].
      constructor; [apply matches_dots, Hd|apply matches_lit].
    + intros (b & m & a & -> & Hm & Hb & Ha).
      rewrite (Hb eq_refl), (Ha eq_refl), append_empty_l, append_empty_r.
      inversion Hm as [| | |r1 r2 x y Hx Hy| |]; subst.
      inversion Hy as [| | |r1 r2 d z Hd Hz| |]; subst.
      rewrite (matches_lit_inv _ _ Hx), (matches_lit_inv _ _ Hz), after_prefix_app.
      apply dots_then_spec. exists d. split; [reflexivity|apply matches_dots_inv, Hd].
Qed.

(** ** Reasoning in the monad *)

Lemma result_eta {A} (r : Result A) : mkResult (res r) (post r) (emitted r) = r.
Proof. destruct r; reflexivity. Qed.

Lemma bind_returned {A B} (m : M A) (k : A -> M B) s a s' effs :
  m s = mkResult (Returned a) s' effs ->
  bind m k s = mkResult (res (k a s')) (post (k a s')) (effs ++ emitted (k a s')).
Proof. intros H. unfold bind. rewrite H. reflexivity. Qed.

Lemma bind_thrown {A B} (m : M A) (k : A -> M B) s e s' effs :
  m s = mkResult (Thrown e) s' effs ->
  bind m k s = mkResult (Thrown e) s' effs.
Proof. intros H. unfold bind. rewrite H. reflexivity. Qed.

Lemma bind_pure {A B} (m : M A) (k : A -> M B) s a s' :
  m s = mkResult (Returned a) s' [] ->
  bind m k s = k a s'.
Proof. intros H. rewrite (bind_returned _ _ _ _ _ _ H). apply result_eta. Qed.

Lemma bind_ret {A B} (a : A) (k : A -> M B) s : bind (ret a) k s = k a s.
Proof. apply bind_pure. reflexivity. Qed.

Lemma bind_throw {A B} (e : Exn) (k : A -> M B) s :
  bind (throw e) k s = mkResult (Thrown e) s [].
Proof. reflexivity. Qed.

Lemma bind_gets {A B} (f : Session -> A) (k : A -> M B) s : bind (gets f) k s = k (f s) s.
Proof. apply bind_pure. reflexivity. Qed.

Lemma bind_modify {B} (f : Session -> Session) (k : unit -> M B) s :
  bind (modify f) k s = k tt (f s).
Proof. apply bind_pure. reflexivity. Qed.

Lemma bind_emit {B} (e : Effect) (k : unit -> M B) s :
  bind (emit e) k s = after_effect e (k tt s).
Proof. reflexivity. Qed.

Lemma bind_bind {A B C} (m : M A) (k1 : A -> M B) (k2 : B -> M C) s :
  bind (bind m k1) k2 s = bind m (fun a => bind (k1 a) k2) s.
Proof.
  unfold bind. destruct (m s) as [[a|e] s1 effs1]; cbn [res post emitted]; [|reflexivity].
  destruct (k1 a s1) as [[b|e] s2 effs2]; cbn [res post emitted]; [|reflexivity].
  rewrite app_assoc. reflexivity.
Qed.

(** One step after the other through a sequence of binds. *)
Ltac mstep :=
  repeat first
    [ rewrite bind_bind | rewrite bind_ret | rewrite bind_throw
    | rewrite bind_gets | rewrite bind_modify | rewrite bind_emit ].

(** ** The [data] handler in cases *)

Lemma promise_resolve_result k p doc s :
  promise_resolve k p doc s =
  mkResult (Returned tt) (resolve_in p doc s) [PromiseResolve k p doc].
Proof.
  unfold promise_resolve, resolve_in, bind, emit, gets, modify, ret; simpl.
  destruct (promises s !! p) as [cell|]; simpl; [|reflexivity].
  destruct (settled cell); reflexivity.
Qed.

Lemma on_data_cases chunk s :
  on_data chunk s =
  if is_event chunk then
    mkResult (Returned tt) s [SendEvent (StoppedEvent (stopped_reason chunk) THREAD_ID)]
  else if appends (buffer s) chunk then
    mkResult (Returned tt) (with_buffer (buffer s +:+ chunk) s) []
  else if JS.endsWith "</frames>" chunk then
    completed Frames (stackFrameLoadedPromiseResolve s) [] chunk s
  else if JS.endsWith "</variables>" chunk then
    completed Variables (variableLoadedPromiseResolve s)
      [ConsoleLog ("variables" +:+ JS.LF); ConsoleLog (buffer s +:+ chunk)] chunk s
  else if JS.endsWith "</breakpoints>" chunk then
    mkResult (Returned tt) (with_buffer "" s) []
  else mkResult (Returned tt) s [].
Proof.
  unfold on_data, is_event, stopped_reason, appends. cbn [JS.test].
  destruct (JS.lineMatch "<breakpoint " "/>" chunk); [reflexivity|].
  destruct (JS.lineMatch "<suspended " "/>" chunk); [reflexivity|].
  cbn [orb andb]. rewrite bind_gets.
  match goal with |- context [if ?c then modify _ else _] => destruct c end;
    [reflexivity|].
  cbn [orb].
  match goal with |- context [if ?c then modify _ else _] => destruct c end;
    [reflexivity|].
  destruct (JS.endsWith "</frames>" chunk).
  - cbn [orb]. unfold parseFromString. mstep.
    cbn [buffer with_buffer stackFrameLoadedPromiseResolve parser].
    rewrite (bind_returned _ _ _ _ _ _ (promise_resolve_result _ _ _ _)).
    reflexivity.
  - destruct (JS.endsWith "</variables>" chunk).
    + cbn [orb]. unfold parseFromString, console_log. mstep.
      cbn [buffer with_buffer variableLoadedPromiseResolve parser].
      rewrite (bind_returned _ _ _ _ _ _ (promise_resolve_result _ _ _ _)).
      reflexivity.
    + destruct (JS.endsWith "</breakpoints>" chunk); reflexivity.
Qed.

(** ** The promise jobs *)

Lemma frames_loop_quiet s : forall childNodes i frames,
  post (frames_loop childNodes i frames s) = s /\
  emitted (frames_loop childNodes i frames s) = [].
Proof.
  induction childNodes as [|node rest IH]; intros i frames; [split; reflexivity|].
  cbn [frames_loop].
  destruct node as [name attrs children|]; cbn [attributes_of]; mstep;
    [|split; reflexivity].
  destruct (getNamedItem attrs "file") as [f|]; cbn [defined]; mstep;
    [|split; reflexivity].
  destruct (_ || _); [split; reflexivity|].
  destruct (getNamedItem attrs "line") as [lv|]; cbn [defined]; mstep;
    [|split; reflexivity].
  destruct (JS.to_number lv) as [n|]; cbn [defined]; mstep; [|split; reflexivity].
  unfold convertDebuggerLineToClient. mstep.
  destruct (JS.at_index _ _) as [text|]; cbn [defined]; mstep; [|split; reflexivity].
  apply IH.
Qed.

Lemma variables_loop_quiet s ref : forall childNodes variables,
  post (variables_loop childNodes ref variables s) = s /\
  emitted (variables_loop childNodes ref variables s) = [].
Proof.
  induction childNodes as [|node rest IH]; intros variables; [split; reflexivity|].
  cbn [variables_loop].
  destruct node as [name attrs children|]; cbn [attributes_of]; mstep;
    [|split; reflexivity].
  destruct (getNamedItem attrs "name") as [nv|]; cbn [defined]; mstep;
    [|split; reflexivity].
  destruct (getNamedItem attrs "value") as [vv|]; cbn [defined]; mstep;
    [|split; reflexivity].
  apply IH.
Qed.

(** A continuation leaves the session as it is and at most answers. *)
Lemma run_reaction_quiet r doc s :
  post (run_reaction r doc s) = s /\
  forallb is_answer (emitted (run_reaction r doc s)) = true.
Proof.
  destruct r as [response|response ref]; cbn [run_reaction].
  - unfold stackTrace_then.
    destruct (documentElement doc) as [root|]; cbn [defined]; mstep;
      [|split; reflexivity].
    destruct (negb _); [split; reflexivity|].
    destruct (frames_loop_quiet s (childNodes_of root) 0 []) as [Hp He].
    destruct (frames_loop (childNodes_of root) 0 [] s) as [[frames|e] s' effs] eqn:E;
      cbn [post emitted] in Hp, He; subst s' effs.
    + rewrite (bind_returned _ _ _ _ _ _ E). split; reflexivity.
    + rewrite (bind_thrown _ _ _ _ _ _ E). split; reflexivity.
  - unfold variables_then.
    destruct (documentElement doc) as [root|]; cbn [defined]; mstep;
      [|split; reflexivity].
    destruct (variables_loop_quiet s ref (childNodes_of root) []) as [Hp He].
    destruct (variables_loop (childNodes_of root) ref [] s) as [[vars|e] s' effs] eqn:E;
      cbn [post emitted] in Hp, He; subst s' effs.
    + rewrite (bind_returned _ _ _ _ _ _ E). split; reflexivity.
    + rewrite (bind_thrown _ _ _ _ _ _ E). split; reflexivity.
Qed.

Lemma run_jobs_quiet : forall js s,
  res (run_jobs js s) = Returned tt /\
  post (run_jobs js s) = s /\
  forallb is_answer (emitted (run_jobs js s)) = true.
Proof.
  induction js as [|[r doc] js IH]; intros s; [repeat split; reflexivity|].
  simpl. destruct (run_reaction_quiet r doc s) as [Hp He].
  unfold bind, settle.
  destruct (run_reaction r doc s) as [[[]|e] s' effs]; simpl in *; subst s';
    destruct (IH s) as (Hr & Hp' & He'); rewrite Hr, Hp'; simpl;
    rewrite ?forallb_app, He, He'; repeat split; reflexivity.
Qed.

Lemma drain_result s :
  drain s = mkResult (Returned tt) (with_jobs [] s)
              (emitted (run_jobs (jobs s) (with_jobs [] s))).
Proof.
  unfold drain. mstep.
  destruct (run_jobs_quiet (jobs s) (with_jobs [] s)) as (Hr & Hp & _).
  destruct (run_jobs (jobs s) (with_jobs [] s)) as [r p effs].
  cbn [res post emitted] in *. subst r p. reflexivity.
Qed.

Lemma with_jobs_idle s : jobs s = [] -> with_jobs [] s = s.
Proof. destruct s; simpl; intros ->; reflexivity. Qed.

(** ** Delivering chunks *)

Lemma on_data_returns chunk s : res (on_data chunk s) = Returned tt.
Proof.
  rewrite on_data_cases. unfold completed.
  repeat match goal with |- context [if ?c then _ else _] => destruct c end; reflexivity.
Qed.

Lemma deliver_result chunk s :
  let s1 := post (on_data chunk s) in
  deliver chunk s =
  mkResult (Returned tt) (with_jobs [] s1)
    (emitted (on_data chunk s) ++ emitted (run_jobs (jobs s1) (with_jobs [] s1))).
Proof.
  intros s1. subst s1. unfold deliver.
  pose proof (on_data_returns chunk s) as Hr.
  destruct (on_data chunk s) as [[[]|e] s1 effs] eqn:E; [|discriminate].
  rewrite (bind_returned _ _ _ _ _ _ E), drain_result. reflexivity.
Qed.

Lemma feed_cons chunk rest s :
  let s1 := post (deliver chunk s) in
  feed (chunk :: rest) s =
  mkResult (res (feed rest s1)) (post (feed rest s1))
    (emitted (deliver chunk s) ++ emitted (feed rest s1)).
Proof.
  intros s1. subst s1. cbn [feed].
  rewrite (bind_returned _ _ _ _ _ _ (deliver_result chunk s)).
  rewrite deliver_result. reflexivity.
Qed.

Lemma feed_returns : forall chunks s, res (feed chunks s) = Returned tt.
Proof.
  induction chunks as [|c cs IH]; intros s; [reflexivity|].
  rewrite feed_cons. simpl. apply IH.
Qed.

Lemma deliver_idle chunk s : jobs (post (deliver chunk s)) = [].
Proof. rewrite deliver_result. reflexivity. Qed.

(** An event chunk that arrives when no job is pending: the event is sent
    and the session is as before. *)
Lemma deliver_event chunk s :
  is_event chunk = true ->
  jobs s = [] ->
  deliver chunk s =
  mkResult (Returned tt) s [SendEvent (StoppedEvent (stopped_reason chunk) THREAD_ID)].
Proof.
  intros Hev Hidle. rewrite deliver_result, on_data_cases, Hev. simpl.
  rewrite Hidle. simpl. rewrite (with_jobs_idle s Hidle). reflexivity.
Qed.

Lemma filter_all {A} (p : A -> bool) l : forallb p l = true -> List.filter p l = l.
Proof.
  induction l as [|x l IH]; simpl; [reflexivity|].
  intros H. apply andb_true_iff in H as [-> H]. rewrite (IH H). reflexivity.
Qed.

Lemma filter_none {A} (p : A -> bool) l :
  forallb (fun x => negb (p x)) l = true -> List.filter p l = [].
Proof.
  induction l as [|x l IH]; simpl; [reflexivity|].
  intros H. apply andb_true_iff in H as [Hx H]. apply negb_true_iff in Hx as ->. exact (IH H).
Qed.

Lemma forallb_impl {A} (p q : A -> bool) l :
  (forall x, p x = true -> q x = true) -> forallb p l = true -> forallb q l = true.
Proof.
  intros Hpq. induction l as [|x l IH]; simpl; [reflexivity|].
  intros H. apply andb_true_iff in H as [Hx H]. rewrite (Hpq x Hx), (IH H). reflexivity.
Qed.

(** The effects of a chunk that is not an event: parses, resolutions,
    console lines and answers, but no event. *)
Lemma deliver_sends_no_event chunk s :
  is_event chunk = false ->
  forallb (fun e => negb (is_send_event e)) (emitted (deliver chunk s)) = true.
Proof.
  intros Hev. rewrite deliver_result. cbn [emitted]. rewrite forallb_app.
  apply andb_true_iff. split.
  - rewrite on_data_cases, Hev. unfold completed.
    repeat match goal with |- context [if ?c then _ else _] => destruct c end; reflexivity.
  - destruct (run_jobs_quiet (jobs (post (on_data chunk s)))
                (with_jobs [] (post (on_data chunk s)))) as (_ & _ & H).
    revert H. apply forallb_impl. intros [] ?; (reflexivity || discriminate).
Qed.

(** ** Events among the chunks *)

(** C5. A chunk that wholly matches [<breakpoint .../>] or
    [<suspended .../>] is dispatched at once as a StoppedEvent and leaves
    the buffer as it is.  In a sequence of chunks that begins when no
    promise job is pending (as between any two events of the loop), the
    events sent are those of the event chunks, one each and in order, and
    everything else (the final session and with it the buffer, the texts
    parsed, the documents that resolve a promise, the responses) is what it
    is without the event chunks: no event chunk is part of a document. *)
Theorem C5_events_never_buffered chunks s :
  jobs s = [] ->
  let not_event := fun c => negb (is_event c) in
  let r := feed chunks s in
  let r' := feed (List.filter not_event chunks) s in
  (forall chunk s0, is_event chunk = true ->
     on_data chunk s0 = mkResult (Returned tt) s0 [stopped_event chunk]) /\
  post r = post r' /\
  List.filter (fun e => negb (is_send_event e)) (emitted r) = emitted r' /\
  List.filter is_send_event (emitted r) = map stopped_event (List.filter is_event chunks).
Proof.
  intros Hidle not_event r r'. subst r r'. split.
  { intros chunk s0 Hev. rewrite on_data_cases, Hev. reflexivity. }
  revert s Hidle. induction chunks as [|c cs IH]; intros s Hidle.
  { repeat split; reflexivity. }
  rewrite feed_cons. cbn [post emitted List.filter]. subst not_event. cbn beta.
  destruct (is_event c) eqn:Hev; cbn [negb].
  - rewrite (deliver_event c s Hev Hidle). cbn [post emitted].
    destruct (IH s Hidle) as (Hp & He & Hs).
    split; [exact Hp|]. split.
    + cbn [app List.filter is_send_event negb]. exact He.
    + cbn [app List.filter is_send_event map]. rewrite Hs. reflexivity.
  - rewrite feed_cons. cbn [post emitted].
    destruct (IH (post (deliver c s)) (deliver_idle c s)) as (Hp & He & Hs).
    split; [exact Hp|].
    rewrite !List.filter_app, He, Hs.
    rewrite (filter_all _ _ (deliver_sends_no_event c s Hev)).
    rewrite (filter_none _ _ (deliver_sends_no_event c s Hev)).
    split; reflexivity.
Qed.

Lemma C5_events_never_buffered_witness :
  on_data "<breakpoint file='/app/user.rb' line='4' threadId='1'/>" greeter_waiting
    = mkResult (Returned tt) greeter_waiting
        [SendEvent (StoppedEvent "breakpoint" THREAD_ID)] /\
  post (feed frames_chunks_with_events greeter_waiting)
    = post (feed frames_chunks greeter_waiting) /\
  List.filter (fun e => negb (is_send_event e))
    (emitted (feed frames_chunks_with_events greeter_waiting))
    = emitted (feed frames_chunks greeter_waiting) /\
  List.filter is_send_event (emitted (feed frames_chunks_with_events greeter_waiting))
    = [SendEvent (StoppedEvent "step" THREAD_ID);
       SendEvent (StoppedEvent "breakpoint" THREAD_ID)].
Proof.
  destruct (C5_events_never_buffered frames_chunks_with_events greeter_waiting eq_refl)
    as [Hnow Hrest].
  split; [|exact Hrest].
  exact (Hnow "<breakpoint file='/app/user.rb' line='4' threadId='1'/>" greeter_waiting eq_refl).
Defined.

(** ** Chunks aligned with the elements of a document *)

Ltac settle_tests :=
  repeat match goal with
  | Hs : JS.startsWith ?p ?c = true |- context [JS.startsWith ?q ?c] =>
      first [ rewrite Hs | rewrite (startsWith_disjoint p q c Hs eq_refl) ]
  | Hs : JS.startsWith ?p ?c = true |- context [JS.lineMatch ?q ?suf ?c] =>
      rewrite (lineMatch_not_start q suf c (startsWith_disjoint p q c Hs eq_refl))
  | He : JS.endsWith ?p ?c = true |- context [JS.endsWith ?q ?c] =>
      first [ rewrite He | rewrite (endsWith_disjoint p q c He eq_refl) ]
  | He : JS.endsWith ?p ?c = true |- context [JS.lineMatch ?q ?suf ?c] =>
      rewrite (lineMatch_not_end q suf c (endsWith_disjoint p suf c He eq_refl))
  | H : JS.endsWith ?p ?c = false |- context [JS.endsWith ?p ?c] => rewrite H
  | H : JS.lineMatch ?p ?suf ?c = true |- context [JS.lineMatch ?p ?suf ?c] => rewrite H
  | H : String.eqb ?b "" = false |- context [String.eqb ?b ""] => rewrite H
  end.




















(** ** [setBreakPointsRequest]: what one turn of the loop computes *)

Lemma breakpoint_at_located lines clientLine s :
  breakpoint_at lines clientLine s =
  match located (clientLinesStartAt1 s) lines clientLine with
  | Some (v, line) =>
      mkResult (Returned (mkBreakpoint v line (_breakpointId s)))
               (with_breakpointId (_breakpointId s + 1) s)
               [SocketWrite (break_command line)]
  | None => mkResult (Thrown TypeError) s []
  end.
Proof.
  unfold breakpoint_at, located, convertClientLineToDebugger,
    convertDebuggerLineToClient, socket_write, toDebugger, toClient.
  mstep.
  destruct (_ <? _); mstep.
  - destruct (JS.at_index lines _) as [text|]; cbn [defined mbind option_bind]; mstep;
      reflexivity.
  - reflexivity.
Qed.


Lemma with_breakpointId_same s : with_breakpointId (_breakpointId s) s = s.
Proof. destruct s; reflexivity. Qed.

Lemma numbered_lookup rs : forall id i v line,
  rs !! i = Some (v, line) ->
  numbered id rs !! i = Some (mkBreakpoint v line (id + Z.of_nat i)).
Proof.
  induction rs as [|[v0 l0] rs IH]; intros id i v line H; [discriminate|].
  destruct i as [|i]; simpl in *.
  - injection H as -> ->. rewrite Z.add_0_r. reflexivity.
  - rewrite (IH (id + 1) i v line H). do 2 f_equal. lia.
Qed.

Lemma breakpoints_loop_returns lines : forall clientLines rs acc s,
  mapM (located (clientLinesStartAt1 s) lines) clientLines = Some rs ->
  breakpoints_loop lines clientLines acc s =
  mkResult (Returned (acc ++ numbered (_breakpointId s) rs))
           (with_breakpointId (_breakpointId s + Z.of_nat (length rs)) s)
           (break_writes rs).
Proof.
  induction clientLines as [|cl cls IH]; intros rs acc s H; simpl in H.
  - injection H as <-. simpl. rewrite app_nil_r, Z.add_0_r, with_breakpointId_same.
    reflexivity.
  - destruct (located _ lines cl) as [[v line]|] eqn:Hcl; [|discriminate].
    simpl in H. destruct (mapM _ cls) as [rs'|] eqn:Hcls; [|discriminate].
    injection H as <-. cbn [breakpoints_loop].
    pose proof (breakpoint_at_located lines cl s) as Hat. rewrite Hcl in Hat.
    rewrite (bind_returned _ _ _ _ _ _ Hat).
    rewrite (IH rs' (acc ++ [mkBreakpoint v line (_breakpointId s)])
               (with_breakpointId (_breakpointId s + 1) s) Hcls).
    cbn [res post emitted numbered length break_writes map snd app _breakpointId
         with_breakpointId].
    rewrite <- app_assoc. cbn [app]. f_equal.
    unfold with_breakpointId. f_equal. lia.
Qed.

Lemma breakpoints_loop_throws lines : forall clientLines acc s,
  mapM (located (clientLinesStartAt1 s) lines) clientLines = None ->
  exists id effs,
    breakpoints_loop lines clientLines acc s =
    mkResult (Thrown TypeError) (with_breakpointId id s) effs.
Proof.
  induction clientLines as [|cl cls IH]; intros acc s H; simpl in H; [discriminate|].
  cbn [breakpoints_loop].
  pose proof (breakpoint_at_located lines cl s) as Hat.
  destruct (located _ lines cl) as [[v line]|] eqn:Hcl.
  - simpl in H. destruct (mapM _ cls) as [rs'|] eqn:Hcls; [discriminate|].
    destruct (IH (acc ++ [mkBreakpoint v line (_breakpointId s)])
                (with_breakpointId (_breakpointId s + 1) s) Hcls) as (id & effs & Hrest).
    rewrite (bind_returned _ _ _ _ _ _ Hat), Hrest.
    eexists id, _. reflexivity.
  - rewrite (bind_thrown _ _ _ _ _ _ Hat).
    exists (_breakpointId s), []. rewrite with_breakpointId_same. reflexivity.
Qed.

Lemma readFileSync_found path content s :
  fs s !! path = Some content ->
  readFileSync path s = mkResult (Returned content) s [].
Proof. intros H. unfold readFileSync. mstep. rewrite H. reflexivity. Qed.

Lemma readFileSync_missing path s :
  fs s !! path = None ->
  readFileSync path s = mkResult (Thrown (ENOENT path)) s [].
Proof. intros H. unfold readFileSync. mstep. rewrite H. reflexivity. Qed.

(** A request that reads the file and locates every line returns: the
    breakpoint commands are written, the table is updated, the response is
    sent. *)
Lemma setBreakPointsRequest_returns response path clientLines s content rs :
  fs s !! path = Some content ->
  mapM (located (clientLinesStartAt1 s) (JS.split_nl content)) clientLines = Some rs ->
  let bps := numbered (_breakpointId s) rs in
  setBreakPointsRequest response path clientLines s =
  mkResult (Returned tt)
    (with_breakPoints (<[path := bps]> (_breakPoints s))
       (with_breakpointId (_breakpointId s + Z.of_nat (length rs)) s))
    (break_writes rs ++ [SendResponse response (BreakpointsBody bps)]).
Proof.
  intros Hfile Hrs bps. unfold setBreakPointsRequest.
  rewrite (bind_pure _ _ s content s) by (apply readFileSync_found, Hfile).
  rewrite (bind_returned _ _ _ _ _ _ (breakpoints_loop_returns _ _ rs [] s Hrs)).
  reflexivity.
Qed.

(** A request returns only in that way. *)
Lemma setBreakPointsRequest_inv response path clientLines s :
  res (setBreakPointsRequest response path clientLines s) = Returned tt ->
  exists content rs,
    fs s !! path = Some content /\
    mapM (located (clientLinesStartAt1 s) (JS.split_nl content)) clientLines = Some rs.
Proof.
  unfold setBreakPointsRequest.
  destruct (fs s !! path) as [content|] eqn:Hfile.
  - rewrite (bind_pure _ _ s content s) by (apply readFileSync_found, Hfile).
    destruct (mapM (located (clientLinesStartAt1 s) (JS.split_nl content)) clientLines)
      as [rs|] eqn:Hrs.
    + intros _. exists content, rs. split; [reflexivity|exact Hrs].
    + destruct (breakpoints_loop_throws _ _ [] s Hrs) as (id & effs & Hloop).
      rewrite (bind_thrown _ _ _ _ _ _ Hloop). discriminate.
  - rewrite (bind_thrown _ _ s (ENOENT path) s [])
      by (apply readFileSync_missing, Hfile).
    discriminate.
Qed.

(** A request that throws leaves the table as it was. *)
Lemma setBreakPointsRequest_thrown response path clientLines s e :
  res (setBreakPointsRequest response path clientLines s) = Thrown e ->
  _breakPoints (post (setBreakPointsRequest response path clientLines s)) = _breakPoints s.
Proof.
  destruct (fs s !! path) as [content|] eqn:Hfile.
  - destruct (mapM (located (clientLinesStartAt1 s) (JS.split_nl content)) clientLines)
      as [rs|] eqn:Hrs.
    + rewrite (setBreakPointsRequest_returns _ _ _ _ _ _ Hfile Hrs). discriminate.
    + intros _. unfold setBreakPointsRequest.
      rewrite (bind_pure _ _ s content s) by (apply readFileSync_found, Hfile).
      destruct (breakpoints_loop_throws _ _ [] s Hrs) as (id & effs & Hloop).
      rewrite (bind_thrown _ _ _ _ _ _ Hloop). reflexivity.
  - intros _. unfold setBreakPointsRequest.
    rewrite (bind_thrown _ _ s (ENOENT path) s [])
      by (apply readFileSync_missing, Hfile).
    reflexivity.
Qed.

(** ** The breakpoints that a request returns *)

Lemma returns_breakpoints_inv response path clientLines s bps :
  returns_breakpoints response path clientLines s bps ->
  exists content rs,
    fs s !! path = Some content /\
    mapM (located (clientLinesStartAt1 s) (JS.split_nl content)) clientLines = Some rs /\
    bps = numbered (_breakpointId s) rs.
Proof.
  intros [Hres Hlast].
  destruct (setBreakPointsRequest_inv _ _ _ _ Hres) as (content & rs & Hfile & Hrs).
  exists content, rs. split; [exact Hfile|]. split; [exact Hrs|].
  rewrite (setBreakPointsRequest_returns response _ _ _ _ _ Hfile Hrs) in Hlast.
  simpl in Hlast. rewrite last_snoc in Hlast. congruence.
Qed.

(** The breakpoint at position [i] of the response is the one located for
    the line at position [i] of the request. *)
Lemma returned_breakpoint response path clientLines s bps content i cl :
  returns_breakpoints response path clientLines s bps ->
  fs s !! path = Some content ->
  clientLines !! i = Some cl ->
  exists v line,
    located (clientLinesStartAt1 s) (JS.split_nl content) cl = Some (v, line) /\
    bps !! i = Some (mkBreakpoint v line (_breakpointId s + Z.of_nat i)).
Proof.
  intros Hret Hfile Hcl.
  destruct (returns_breakpoints_inv _ _ _ _ _ Hret) as (content' & rs & Hfile' & Hrs & ->).
  assert (content' = content) as -> by congruence.
  apply mapM_Some in Hrs.
  destruct (Forall2_lookup_l _ _ _ _ _ Hrs Hcl) as ([v line] & Hi & Hloc).
  exists v, line. split; [exact Hloc|]. apply numbered_lookup. exact Hi.
Qed.

Lemma at_index_in_range {A} (arr : list A) i :
  0 <= i < Z.of_nat (length arr) -> is_Some (JS.at_index arr i).
Proof.
  intros [H0 H1]. unfold JS.at_index.
  destruct (Z.ltb_spec i 0); [lia|]. apply lookup_lt_is_Some. lia.
Qed.

(** A turn of the loop throws only on a line number below 1. *)
Lemma located_positive startAt1 lines cl :
  0 < toDebugger startAt1 cl -> is_Some (located startAt1 lines cl).
Proof.
  intros Hpos. unfold located.
  destruct (Z.ltb_spec (toDebugger startAt1 cl) (Z.of_nat (length lines))) as [Hlt|Hge].
  - destruct (at_index_in_range lines (toDebugger startAt1 cl - 1)) as [text ->]; [lia|].
    simpl. eexists; reflexivity.
  - eexists; reflexivity.
Qed.

Lemma positive_lines_located startAt1 lines clientLines :
  positive_lines startAt1 clientLines = true ->
  exists rs, mapM (located startAt1 lines) clientLines = Some rs.
Proof.
  intros Hpos. apply (mapM_is_Some_2 (located startAt1 lines)).
  apply Forall_forall. intros cl Hin. apply located_positive.
  unfold positive_lines in Hpos. rewrite forallb_forall in Hpos.
  apply Z.ltb_lt, Hpos. apply list_elem_of_In. exact Hin.
Qed.

(** A request for a readable file and positive lines returns; the
    breakpoint at position [i] of its response is the one located for the
    line at position [i] of the request. *)
Lemma request_returns response path clientLines s content :
  fs s !! path = Some content ->
  positive_lines (clientLinesStartAt1 s) clientLines = true ->
  exists rs,
    mapM (located (clientLinesStartAt1 s) (JS.split_nl content)) clientLines = Some rs /\
    returns_breakpoints response path clientLines s (numbered (_breakpointId s) rs).
Proof.
  intros Hfile Hpos.
  destruct (positive_lines_located _ (JS.split_nl content) _ Hpos) as [rs Hrs].
  exists rs. split; [exact Hrs|]. unfold returns_breakpoints.
  rewrite (setBreakPointsRequest_returns response _ _ _ _ _ Hfile Hrs). simpl.
  split; [reflexivity|apply last_snoc].
Qed.

Lemma request_breakpoint response path clientLines s content i cl :
  fs s !! path = Some content ->
  positive_lines (clientLinesStartAt1 s) clientLines = true ->
  clientLines !! i = Some cl ->
  exists bps v line,
    returns_breakpoints response path clientLines s bps /\
    located (clientLinesStartAt1 s) (JS.split_nl content) cl = Some (v, line) /\
    bps !! i = Some (mkBreakpoint v line (_breakpointId s + Z.of_nat i)).
Proof.
  intros Hfile Hpos Hcl.
  destruct (request_returns response _ _ _ _ Hfile Hpos) as (rs & Hrs & Hret).
  destruct (returned_breakpoint _ _ _ _ _ _ _ _ Hret Hfile Hcl) as (v & line & Hloc & Hbp).
  eexists _, v, line. split; [exact Hret|]. split; [exact Hloc|exact Hbp].
Qed.

(** ** Claims on breakpoints *)

(** C2. With the source lines ["a"; ""; "+b"; "-c"; "lazy_var = 1"] and
    lines counted from 1, a request for lines 2, 3, 4 and 5 returns
    breakpoints at lines 3, 4, 3 and 5; the one for line 5 is unverified,
    the other three are verified. *)
Theorem C2_five_lines response path s content :
  clientLinesStartAt1 s = true ->
  fs s !! path = Some content ->
  JS.split_nl content = five_lines ->
  let id := _breakpointId s in
  returns_breakpoints response path [2; 3; 4; 5] s
    [mkBreakpoint true 3 id; mkBreakpoint true 4 (id + 1);
     mkBreakpoint true 3 (id + 1 + 1); mkBreakpoint false 5 (id + 1 + 1 + 1)].
Proof.
  intros H1 Hfile Hlines id. unfold returns_breakpoints.
  assert (Hrs : mapM (located (clientLinesStartAt1 s) (JS.split_nl content)) [2; 3; 4; 5]
                = Some [(true, 3); (true, 4); (true, 3); (false, 5)]).
  { rewrite H1, Hlines. reflexivity. }
  rewrite (setBreakPointsRequest_returns response _ _ _ _ _ Hfile Hrs).
  split; reflexivity.
Qed.

Lemma C2_five_lines_witness :
  returns_breakpoints (response_of 3 "setBreakpoints") "/u/user.rb" [2; 3; 4; 5]
    (launched true ∅ "/u/user.rb" (file_of five_lines))
    [mkBreakpoint true 3 1000; mkBreakpoint true 4 1001;
     mkBreakpoint true 3 1002; mkBreakpoint false 5 1003].
Proof.
  apply (C2_five_lines (response_of 3 "setBreakpoints") "/u/user.rb"
           (launched true ∅ "/u/user.rb" (file_of five_lines)) (file_of five_lines));
    reflexivity.
Defined.

(** C3, counterexample.  In the file with lines [""; "lazy"; "x"] a
    breakpoint requested on line 1 is moved to line 2, whose text is "lazy",
    and is returned verified: the flag was computed on the empty line 1. *)
Lemma C3_counterexample :
  ~ verified_by_adjusted_line (response_of 3 "setBreakpoints") "/u/lazy.rb" [1]
      (launched true ∅ "/u/lazy.rb" (file_of [""; "lazy"; "x"])).
Proof.
  intros H.
  specialize (H [mkBreakpoint true 2 1000] (file_of [""; "lazy"; "x"]) 0%nat 1
                (mkBreakpoint true 2 1000) "lazy").
  destruct H as [H _]; try reflexivity.
  - split; reflexivity.
  - split; reflexivity.
  - apply H; [reflexivity|]. exists "", "". reflexivity.
Qed.

(** C3, amended.  For every requested line that is in bounds, in a
    request for a readable file and positive lines, the breakpoint is
    verified exactly when the trimmed text of the requested line itself,
    before any adjustment, has no occurrence of "lazy". *)
Theorem C3_verified_by_requested_line response path clientLines s content i cl text :
  fs s !! path = Some content ->
  positive_lines (clientLinesStartAt1 s) clientLines = true ->
  clientLines !! i = Some cl ->
  toDebugger (clientLinesStartAt1 s) cl < Z.of_nat (length (JS.split_nl content)) ->
  JS.at_index (JS.split_nl content) (toDebugger (clientLinesStartAt1 s) cl - 1) = Some text ->
  exists bps bp,
    returns_breakpoints response path clientLines s bps /\
    bps !! i = Some bp /\
    (bp_verified bp = true <-> ~ occurs "lazy" (JS.trim text)).
Proof.
  intros Hfile Hpos Hcl Hin Htext.
  destruct (request_breakpoint response _ _ _ _ _ _ Hfile Hpos Hcl)
    as (bps & v & line & Hret & Hloc & Hbp).
  eexists bps, _. split; [exact Hret|]. split; [exact Hbp|]. simpl.
  unfold located in Hloc.
  destruct (Z.ltb_spec (toDebugger (clientLinesStartAt1 s) cl)
              (Z.of_nat (length (JS.split_nl content)))) as [_|Hge]; [|lia].
  rewrite Htext in Hloc. simpl in Hloc. injection Hloc as <- _.
  rewrite <- indexOf_negative.
  destruct (Z.ltb_spec (JS.indexOf (JS.trim text) "lazy") 0); split; intros; (lia || congruence).
Qed.

Lemma C3_verified_by_requested_line_witness :
  exists bps bp,
    returns_breakpoints (response_of 3 "setBreakpoints") "/u/lazy.rb" [1; 2]
      (launched true ∅ "/u/lazy.rb" (file_of [""; "lazy"; "x"])) bps /\
    bps !! 1%nat = Some bp /\
    (bp_verified bp = true <-> ~ occurs "lazy" (JS.trim "lazy")).
Proof.
  apply (C3_verified_by_requested_line (response_of 3 "setBreakpoints") "/u/lazy.rb" [1; 2]
           (launched true ∅ "/u/lazy.rb" (file_of [""; "lazy"; "x"]))
           (file_of [""; "lazy"; "x"]) 1%nat 2 "lazy"); reflexivity.
Defined.

Lemma toClient_toDebugger b line : toClient b (toDebugger b line) = line.
Proof. destruct b; simpl; lia. Qed.

(** C10. A requested line whose debugger line number is at least the
    number of source lines fails the strict bounds check: its breakpoint is
    returned unverified at the requested line itself.  The last line of the
    file is such a line. *)
Theorem C10_out_of_bounds response path clientLines s content i cl :
  fs s !! path = Some content ->
  positive_lines (clientLinesStartAt1 s) clientLines = true ->
  clientLines !! i = Some cl ->
  Z.of_nat (length (JS.split_nl content)) <= toDebugger (clientLinesStartAt1 s) cl ->
  exists bps,
    returns_breakpoints response path clientLines s bps /\
    bps !! i = Some (mkBreakpoint false cl (_breakpointId s + Z.of_nat i)).
Proof.
  intros Hfile Hpos Hcl Hge.
  destruct (request_breakpoint response _ _ _ _ _ _ Hfile Hpos Hcl)
    as (bps & v & line & Hret & Hloc & Hbp).
  exists bps. split; [exact Hret|].
  unfold located in Hloc.
  destruct (Z.ltb_spec (toDebugger (clientLinesStartAt1 s) cl)
              (Z.of_nat (length (JS.split_nl content)))) as [Hlt|_]; [lia|].
  rewrite toClient_toDebugger in Hloc. injection Hloc as <- <-. exact Hbp.
Qed.

Lemma C10_out_of_bounds_witness :
  exists bps,
    returns_breakpoints (response_of 3 "setBreakpoints") "/u/user.rb" [2; 5]
      (launched true ∅ "/u/user.rb" (file_of five_lines)) bps /\
    bps !! 1%nat = Some (mkBreakpoint false 5 (1000 + Z.of_nat 1)).
Proof.
  apply (C10_out_of_bounds (response_of 3 "setBreakpoints") "/u/user.rb" [2; 5]
           (launched true ∅ "/u/user.rb" (file_of five_lines))
           (file_of five_lines) 1%nat 5);
    [reflexivity | reflexivity | reflexivity | vm_compute; discriminate].
Defined.

(** C9. The line and the verified flag of a breakpoint are a function
    ([located]) of the line numbering, the lines of the file and the
    requested line: two requests for the same line of the same file content,
    at any positions of one request or of two requests, return the same line
    and the same flag. *)
Theorem C9_same_line_same_breakpoint
    response1 path1 lines1 s1 response2 path2 lines2 s2 content i j cl :
  clientLinesStartAt1 s1 = clientLinesStartAt1 s2 ->
  fs s1 !! path1 = Some content ->
  fs s2 !! path2 = Some content ->
  positive_lines (clientLinesStartAt1 s1) lines1 = true ->
  positive_lines (clientLinesStartAt1 s2) lines2 = true ->
  lines1 !! i = Some cl ->
  lines2 !! j = Some cl ->
  exists bps1 bps2 bp1 bp2,
    returns_breakpoints response1 path1 lines1 s1 bps1 /\
    returns_breakpoints response2 path2 lines2 s2 bps2 /\
    bps1 !! i = Some bp1 /\ bps2 !! j = Some bp2 /\
    bp_line bp1 = bp_line bp2 /\ bp_verified bp1 = bp_verified bp2 /\
    located (clientLinesStartAt1 s1) (JS.split_nl content) cl
      = Some (bp_verified bp1, bp_line bp1).
Proof.
  intros Hflag Hf1 Hf2 Hp1 Hp2 Hi Hj.
  destruct (request_breakpoint response1 _ _ _ _ _ _ Hf1 Hp1 Hi)
    as (bps1 & v1 & l1 & Hret1 & Hloc1 & Hbp1).
  destruct (request_breakpoint response2 _ _ _ _ _ _ Hf2 Hp2 Hj)
    as (bps2 & v2 & l2 & Hret2 & Hloc2 & Hbp2).
  rewrite <- Hflag, Hloc1 in Hloc2. injection Hloc2 as <- <-.
  exists bps1, bps2, (mkBreakpoint v1 l1 (_breakpointId s1 + Z.of_nat i)),
         (mkBreakpoint v1 l1 (_breakpointId s2 + Z.of_nat j)).
  split; [exact Hret1|]. split; [exact Hret2|].
  split; [exact Hbp1|]. split; [exact Hbp2|].
  split; [reflexivity|]. split; [reflexivity|exact Hloc1].
Qed.

Lemma C9_same_line_same_breakpoint_witness :
  exists bps1 bps2 bp1 bp2,
    returns_breakpoints (response_of 3 "setBreakpoints") "/u/user.rb" [3; 4; 3]
      (launched true ∅ "/u/user.rb" (file_of five_lines)) bps1 /\
    returns_breakpoints (response_of 8 "setBreakpoints") "/u/copy.rb" [3]
      (with_breakpointId 1003
         (launched true {[ "/u/copy.rb" := file_of five_lines ]} "/u/user.rb" "x")) bps2 /\
    bps1 !! 2%nat = Some bp1 /\ bps2 !! 0%nat = Some bp2 /\
    bp_line bp1 = bp_line bp2 /\ bp_verified bp1 = bp_verified bp2 /\
    located true (JS.split_nl (file_of five_lines)) 3 = Some (bp_verified bp1, bp_line bp1).
Proof.
  apply (C9_same_line_same_breakpoint
           (response_of 3 "setBreakpoints") "/u/user.rb" [3; 4; 3]
           (launched true ∅ "/u/user.rb" (file_of five_lines))
           (response_of 8 "setBreakpoints") "/u/copy.rb" [3]
           (with_breakpointId 1003
              (launched true {[ "/u/copy.rb" := file_of five_lines ]} "/u/user.rb" "x"))
           (file_of five_lines) 2%nat 0%nat 3); reflexivity.
Defined.

(** C8, counterexample.  The session holds a breakpoint for
    [/u/gone.rb], whose file is no longer on disk.  A request for that path
    with no line throws at [readFileSync]: nothing is sent, and the stored
    list is not replaced by the empty list, it is the old one. *)
Lemma C8_counterexample :
  let r := setBreakPointsRequest (response_of 5 "setBreakpoints") "/u/gone.rb" [] stale_path in
  res r = Thrown (ENOENT "/u/gone.rb") /\
  emitted r = [] /\
  _breakPoints (post r) !! "/u/gone.rb" = Some [mkBreakpoint true 1 1000] /\
  _breakPoints (post r) !! "/u/gone.rb" <> Some [].
Proof.
  assert (E : setBreakPointsRequest (response_of 5 "setBreakpoints") "/u/gone.rb" []
                stale_path = mkResult (Thrown (ENOENT "/u/gone.rb")) stale_path [])
    by (unfold setBreakPointsRequest; apply bind_thrown, readFileSync_missing; reflexivity).
  cbv zeta. rewrite E. cbn [res emitted post].
  split; [reflexivity|]. split; [reflexivity|]. split; [reflexivity|].
  discriminate.
Qed.

(** C8, amended.  No request, returning or not, changes what is stored
    under another path, and a request that throws changes nothing in the
    table.  A request for [path] whose file can be read and whose lines all
    have a debugger line number of at least 1 returns and replaces what is
    stored under [path] by the list it has built: one breakpoint for each
    requested line, in order, with the flag and the line computed for that
    line and the identifiers from the counter on; this is the list of the
    response, and the empty list when no line was requested. *)
Theorem C8_replaces_the_path_only response path clientLines s :
  let r := setBreakPointsRequest response path clientLines s in
  (forall other, other <> path ->
     _breakPoints (post r) !! other = _breakPoints s !! other) /\
  (forall e, res r = Thrown e -> _breakPoints (post r) = _breakPoints s) /\
  (forall content,
     fs s !! path = Some content ->
     positive_lines (clientLinesStartAt1 s) clientLines = true ->
     exists bps,
       returns_breakpoints response path clientLines s bps /\
       _breakPoints (post r) = <[path := bps]> (_breakPoints s) /\
       length bps = length clientLines /\
       (forall i cl, clientLines !! i = Some cl ->
          exists v line,
            located (clientLinesStartAt1 s) (JS.split_nl content) cl = Some (v, line) /\
            bps !! i = Some (mkBreakpoint v line (_breakpointId s + Z.of_nat i))) /\
       (clientLines = [] -> _breakPoints (post r) !! path = Some [])).
Proof.
  intros r. subst r. split; [|split].
  - intros other Hne.
    destruct (res (setBreakPointsRequest response path clientLines s)) as [[]|e] eqn:Hres.
    + destruct (setBreakPointsRequest_inv _ _ _ _ Hres) as (content & rs & Hfile & Hrs).
      rewrite (setBreakPointsRequest_returns response _ _ _ _ _ Hfile Hrs). simpl.
      apply lookup_insert_ne. congruence.
    + rewrite (setBreakPointsRequest_thrown _ _ _ _ _ Hres). reflexivity.
  - intros e. apply setBreakPointsRequest_thrown.
  - intros content Hfile Hpos.
    destruct (request_returns response _ _ _ _ Hfile Hpos) as (rs & Hrs & Hret).
    exists (numbered (_breakpointId s) rs). split; [exact Hret|].
    rewrite (setBreakPointsRequest_returns response _ _ _ _ _ Hfile Hrs).
    cbn [post _breakPoints with_breakPoints with_breakpointId].
    split; [reflexivity|].
    pose proof (length_mapM _ _ _ Hrs) as Hlen.
    assert (Hnum : forall id, length (numbered id rs) = length rs).
    { clear. induction rs as [|[v line] rs IH]; intros id; [reflexivity|].
      cbn [numbered length]. rewrite IH. reflexivity. }
    split; [rewrite Hnum; symmetry; exact Hlen|]. split.
    + intros i cl Hcl.
      exact (returned_breakpoint response path clientLines s _ content i cl Hret Hfile Hcl).
    + intros ->. cbn [mapM mret option_ret] in Hrs. injection Hrs as <-.
      cbn [numbered]. apply lookup_insert_eq.
Qed.

Lemma C8_replaces_the_path_only_witness :
  _breakPoints (post (setBreakPointsRequest (response_of 5 "setBreakpoints")
                        "/u/user.rb" [] two_paths)) !! "/u/other.rb"
    = Some [mkBreakpoint true 1 1002] /\
  _breakPoints (post (setBreakPointsRequest (response_of 5 "setBreakpoints")
                        "/u/user.rb" [] two_paths)) !! "/u/user.rb"
    = Some [].
Proof.
  destruct (C8_replaces_the_path_only (response_of 5 "setBreakpoints")
              "/u/user.rb" [] two_paths) as (Hother & _ & Hpath).
  split.
  - rewrite (Hother "/u/other.rb"); [reflexivity | discriminate].
  - destruct (Hpath (file_of five_lines) eq_refl eq_refl) as (bps & _ & _ & _ & _ & Hempty).
    exact (Hempty eq_refl).
Defined.

Lemma numbered_writes id rs :
  map (fun bp => SocketWrite (break_command (bp_line bp))) (numbered id rs) = break_writes rs.
Proof.
  revert id. induction rs as [|[v line] rs IH]; intros id; [reflexivity|].
  cbn [numbered map break_writes bp_line snd]. f_equal. apply IH.
Qed.

(** What a request that returns does to its collaborators: one command per
    breakpoint of the response, in order, each with the line of its
    breakpoint and the file [test.rb], and then the response. *)
Lemma break_commands_precede_response response path clientLines s bps :
  returns_breakpoints response path clientLines s bps ->
  emitted (setBreakPointsRequest response path clientLines s) =
  map (fun bp => SocketWrite (break_command (bp_line bp))) bps
  ++ [SendResponse response (BreakpointsBody bps)].
Proof.
  intros Hret.
  destruct (returns_breakpoints_inv _ _ _ _ _ Hret) as (content & rs & Hfile & Hrs & ->).
  rewrite (setBreakPointsRequest_returns response _ _ _ _ _ Hfile Hrs).
  cbn [emitted]. rewrite numbered_writes. reflexivity.
Qed.

(** C4 (the code departs from the claim).  A request for line 1 of
    [/home/u/app.rb] writes [break test.rb:1]: the file of the command is
    the constant [test.rb], not the path of the request.  The command is
    written before the response is sent and carries the line of the
    breakpoint. *)
Theorem C4_command_names_test_rb :
  emitted (setBreakPointsRequest (response_of 4 "setBreakpoints") "/home/u/app.rb" [1]
             (launched true ∅ "/home/u/app.rb" (file_of ["x = 1"; "y = 2"])))
  = [SocketWrite ("break test.rb:1" +:+ JS.LF);
     SendResponse (response_of 4 "setBreakpoints")
       (BreakpointsBody [mkBreakpoint true 1 1000])].
Proof. reflexivity. Qed.

(** ** Claims on the correlation of replies *)

Lemma stackTraceRequest_result response s :
  let p := length (promises s) in
  stackTraceRequest response s =
  mkResult (Returned tt)
    (with_promises (promises s ++ [mkPromise None [StackTraceThen response]])
       (with_stackFrameLoaded p p s))
    [PromiseNew p; PromiseThen p (StackTraceThen response);
     SocketWrite ("where" +:+ JS.LF)].
Proof.
  unfold stackTraceRequest, promise_new, promise_then, socket_write. mstep.
  cbn [promises with_promises with_stackFrameLoaded stackFrameLoaded].
  rewrite list_lookup_middle by reflexivity. cbn [settled reactions app]. mstep.
  cbn [promises with_promises with_stackFrameLoaded].
  rewrite insert_app_r_alt by reflexivity. rewrite Nat.sub_diag. reflexivity.
Qed.

Lemma variablesRequest_result response variablesReference s :
  let p := length (promises s) in
  variablesRequest response variablesReference s =
  mkResult (Returned tt)
    (with_promises
       (promises s ++ [mkPromise None [VariablesThen response variablesReference]])
       (with_variableLoaded p p s))
    [PromiseNew p; PromiseThen p (VariablesThen response variablesReference);
     SocketWrite ("var local" +:+ JS.LF)].
Proof.
  unfold variablesRequest, promise_new, promise_then, socket_write. mstep.
  cbn [promises with_promises with_variableLoaded variableLoaded].
  rewrite list_lookup_middle by reflexivity. cbn [settled reactions app]. mstep.
  cbn [promises with_promises with_variableLoaded].
  rewrite insert_app_r_alt by reflexivity. rewrite Nat.sub_diag. reflexivity.
Qed.

(** C7. [stackTraceRequest] and [variablesRequest] make a new promise and
    register their continuation on it before they write [where] or
    [var local] to the socket: the three calls are made in that order, the
    promise is new to the store, and when the command is written the
    resolver of the session is the one of that promise, which is pending
    with the continuation waiting. *)
Theorem C7_waiter_before_command response variablesReference s :
  let p := length (promises s) in
  let frames := stackTraceRequest response s in
  let vars := variablesRequest response variablesReference s in
  promises s !! p = None /\
  (res frames = Returned tt /\
   emitted frames =
     [PromiseNew p; PromiseThen p (StackTraceThen response);
      SocketWrite ("where" +:+ JS.LF)] /\
   stackFrameLoadedPromiseResolve (post frames) = p /\
   promises (post frames) !! p = Some (mkPromise None [StackTraceThen response])) /\
  (res vars = Returned tt /\
   emitted vars =
     [PromiseNew p; PromiseThen p (VariablesThen response variablesReference);
      SocketWrite ("var local" +:+ JS.LF)] /\
   variableLoadedPromiseResolve (post vars) = p /\
   promises (post vars) !! p =
     Some (mkPromise None [VariablesThen response variablesReference])).
Proof.
  intros p frames vars. split; [apply lookup_ge_None_2; reflexivity|].
  subst frames vars.
  rewrite stackTraceRequest_result, variablesRequest_result. simpl.
  repeat split; apply list_lookup_middle; reflexivity.
Qed.

(** ** Claims on the stack trace *)

(** One frame of the loop that is kept. *)
Lemma frames_loop_keep s attrs name children rest i frames f lv n text :
  getNamedItem attrs "file" = Some f ->
  is_internal (JS.basename f) = false ->
  getNamedItem attrs "line" = Some lv ->
  JS.to_number lv = Some n ->
  JS.at_index (_sourceLines s) (toClient (clientLinesStartAt1 s) n - 1) = Some text ->
  frames_loop (Element name attrs children :: rest) i frames s =
  frames_loop rest (i + 1)
    (frames ++ [mkStackFrame i (JS.trim text)
                  (mkSource (JS.basename (_sourceFile s))
                     (convertDebuggerPathToClient s (_sourceFile s)))
                  (toClient (clientLinesStartAt1 s) n) 0]) s.
Proof.
  intros Hf Hint Hl Hn Ht. cbn [frames_loop attributes_of]. mstep.
  rewrite Hf. cbn [defined]. mstep.
  unfold is_internal in Hint. rewrite Hint.
  rewrite Hl. cbn [defined]. mstep. rewrite Hn. cbn [defined]. mstep.
  unfold convertDebuggerLineToClient. mstep.
  unfold toClient in Ht. rewrite Ht. cbn [defined]. mstep.
  reflexivity.
Qed.

(** The first internal frame ends the loop, whatever follows it. *)
Lemma frames_loop_break s attrs name children rest i frames f :
  getNamedItem attrs "file" = Some f ->
  is_internal (JS.basename f) = true ->
  frames_loop (Element name attrs children :: rest) i frames s =
  mkResult (Returned frames) s [].
Proof.
  intros Hf Hint. cbn [frames_loop attributes_of]. mstep.
  rewrite Hf. cbn [defined]. mstep.
  unfold is_internal in Hint. rewrite Hint. reflexivity.
Qed.

Lemma frames_loop_kept s node rest i frames bn n text :
  file_basename node = Some bn ->
  is_internal bn = false ->
  line_number node = Some n ->
  label_of s n = Some text ->
  frames_loop (node :: rest) i frames s =
  frames_loop rest (i + 1) (frames ++ [frame_at s i n text]) s.
Proof.
  destruct node as [name attrs children|]; simpl; [|discriminate].
  intros Hbn Hint Hn Ht.
  destruct (getNamedItem attrs "file") as [f|] eqn:Hf; [|discriminate].
  injection Hbn as <-.
  destruct (getNamedItem attrs "line") as [lv|] eqn:Hl; [|discriminate].
  simpl in Hn.
  exact (frames_loop_keep s attrs name children rest i frames f lv n text Hf Hint Hl Hn Ht).
Qed.

Lemma frames_loop_stop s node rest i frames bn :
  file_basename node = Some bn ->
  is_internal bn = true ->
  frames_loop (node :: rest) i frames s = mkResult (Returned frames) s [].
Proof.
  destruct node as [name attrs children|]; simpl; [|discriminate].
  intros Hbn Hint.
  destruct (getNamedItem attrs "file") as [f|] eqn:Hf; [|discriminate].
  injection Hbn as <-.
  exact (frames_loop_break s attrs name children rest i frames f Hf Hint).
Qed.

(** The loop keeps the frames before the first internal one and drops that
    one with all that follow. *)
Lemma frames_loop_stops_at_first_internal s internal rest bn :
  file_basename internal = Some bn ->
  is_internal bn = true ->
  forall nodes kept i frames,
    Forall2 (kept_as s) nodes kept ->
    frames_loop (nodes ++ internal :: rest) i frames s =
    mkResult (Returned (frames ++ frames_from s i kept)) s [].
Proof.
  intros Hbn Hint nodes kept i frames H. revert i frames.
  induction H as [|node [n text] nodes kept (bn' & Hb & Hi & Hn & Ht) _ IH];
    intros i frames.
  - cbn [app frames_from]. rewrite app_nil_r.
    exact (frames_loop_stop s internal rest i frames bn Hbn Hint).
  - cbn [app frames_from].
    rewrite (frames_loop_kept s node _ i frames bn' n text Hb Hi Hn Ht).
    rewrite IH, <- app_assoc. reflexivity.
Qed.




(** ** More on [setBreakPointsRequest] *)



Lemma split_go_nonempty s : forall cur, (0 < length (JS.split_go cur s))%nat.
Proof.
  induction s as [|c s IH]; intros cur; simpl; [lia|].
  destruct (Ascii.eqb c "010"); simpl; [lia|apply IH].
Qed.

(** [split] always gives at least one line. *)
Lemma split_nl_nonempty content : (0 < length (JS.split_nl content))%nat.
Proof. apply split_go_nonempty. Qed.

(** A turn of the loop throws exactly on a line number below 1. *)
Lemma located_None startAt1 content cl :
  located startAt1 (JS.split_nl content) cl = None <-> toDebugger startAt1 cl <= 0.
Proof.
  split.
  - intros H. destruct (Z_lt_le_dec 0 (toDebugger startAt1 cl)) as [Hpos|Hle]; [|exact Hle].
    destruct (located_positive startAt1 (JS.split_nl content) cl Hpos) as [x Hx].
    congruence.
  - intros Hle. unfold located.
    pose proof (split_nl_nonempty content).
    destruct (Z.ltb_spec (toDebugger startAt1 cl) (Z.of_nat (length (JS.split_nl content))));
      [|lia].
    unfold JS.at_index.
    destruct (Z.ltb_spec (toDebugger startAt1 cl - 1) 0); [reflexivity|lia].
Qed.





(** X2. A file that cannot be read: the request throws before anything is
    written or stored. *)
Theorem request_for_missing_file response path clientLines s :
  fs s !! path = None ->
  setBreakPointsRequest response path clientLines s =
  mkResult (Thrown (ENOENT path)) s [].
Proof.
  intros Hfile. unfold setBreakPointsRequest.
  apply bind_thrown, readFileSync_missing, Hfile.
Qed.

Lemma request_for_missing_file_witness :
  setBreakPointsRequest (response_of 3 "setBreakpoints") "/u/none.rb" [1; 2] greeter =
  mkResult (Thrown (ENOENT "/u/none.rb")) greeter [].
Proof.
  apply (request_for_missing_file (response_of 3 "setBreakpoints") "/u/none.rb" [1; 2] greeter).
  reflexivity.
Defined.

Lemma numbered_ids rs : forall id i bp,
  numbered id rs !! i = Some bp -> bp_id bp = id + Z.of_nat i.
Proof.
  induction rs as [|[v l] rs IH]; intros id i bp H; [discriminate|].
  destruct i as [|i]; cbn [numbered] in H.
  - injection H as <-. cbn [bp_id]. lia.
  - change ((mkBreakpoint v l id :: numbered (id + 1) rs) !! S i)
      with (numbered (id + 1) rs !! i) in H.
    rewrite (IH _ _ _ H). lia.
Qed.

Lemma numbered_length id rs : length (numbered id rs) = length rs.
Proof.
  revert id. induction rs as [|[v l] rs IH]; intros id; [reflexivity|].
  cbn [numbered length]. rewrite IH. reflexivity.
Qed.

Lemma response_identifiers response path clientLines s bps :
  returns_breakpoints response path clientLines s bps ->
  length bps = length clientLines /\
  (forall i bp, bps !! i = Some bp -> bp_id bp = _breakpointId s + Z.of_nat i) /\
  _breakpointId (post (setBreakPointsRequest response path clientLines s)) =
    _breakpointId s + Z.of_nat (length clientLines).
Proof.
  intros Hret.
  destruct (returns_breakpoints_inv _ _ _ _ _ Hret) as (content & rs & Hfile & Hrs & ->).
  rewrite (setBreakPointsRequest_returns response _ _ _ _ _ Hfile Hrs).
  pose proof (length_mapM _ _ _ Hrs) as Hlen.
  rewrite numbered_length. cbn [post _breakpointId with_breakPoints with_breakpointId].
  split; [congruence|]. split; [|congruence].
  intros i bp. apply numbered_ids.
Qed.

(** X5. The identifiers of a response are consecutive from the counter of
    the session, one breakpoint per requested line, so that no two
    breakpoints of a response share an identifier; the counter is left
    after the last of them. *)
Theorem identifiers_are_consecutive response path clientLines s bps :
  returns_breakpoints response path clientLines s bps ->
  length bps = length clientLines /\
  (forall i bp, bps !! i = Some bp -> bp_id bp = _breakpointId s + Z.of_nat i) /\
  NoDup (map bp_id bps) /\
  _breakpointId (post (setBreakPointsRequest response path clientLines s)) =
    _breakpointId s + Z.of_nat (length clientLines).
Proof.
  intros Hret.
  destruct (response_identifiers _ _ _ _ _ Hret) as (Hlen & Hid & Hnext).
  split; [exact Hlen|]. split; [exact Hid|]. split; [|exact Hnext].
  apply (proj2 (NoDup_alt (map bp_id bps))). intros i j x Hi Hj.
  change (map bp_id bps) with (bp_id <$> bps) in Hi, Hj.
  rewrite list_lookup_fmap in Hi, Hj.
  destruct (bps !! i) as [bi|] eqn:Ei; [|discriminate].
  destruct (bps !! j) as [bj|] eqn:Ej; [|discriminate].
  cbn in Hi, Hj. injection Hi as Hi. injection Hj as Hj.
  rewrite (Hid _ _ Ei) in Hi. rewrite (Hid _ _ Ej) in Hj. lia.
Qed.

Lemma identifiers_are_consecutive_witness :
  length [mkBreakpoint true 3 1000; mkBreakpoint false 5 1001] = length [2; 5] /\
  (forall i bp, [mkBreakpoint true 3 1000; mkBreakpoint false 5 1001] !! i = Some bp ->
     bp_id bp = 1000 + Z.of_nat i) /\
  NoDup (map bp_id [mkBreakpoint true 3 1000; mkBreakpoint false 5 1001]) /\
  _breakpointId (post (setBreakPointsRequest (response_of 3 "setBreakpoints") "/u/user.rb"
                         [2; 5] (launched true ∅ "/u/user.rb" (file_of five_lines)))) =
    1000 + Z.of_nat (length [2; 5]).
Proof.
  apply (identifiers_are_consecutive (response_of 3 "setBreakpoints") "/u/user.rb" [2; 5]
           (launched true ∅ "/u/user.rb" (file_of five_lines))
           [mkBreakpoint true 3 1000; mkBreakpoint false 5 1001]).
  split; reflexivity.
Defined.

(** X6. Identifiers are never reused: every breakpoint of a later request
    has a greater identifier than every breakpoint of an earlier one,
    whatever the two paths. *)
Theorem identifiers_increase_across_requests
    response1 path1 lines1 response2 path2 lines2 s bps1 bps2 bp1 bp2 :
  returns_breakpoints response1 path1 lines1 s bps1 ->
  returns_breakpoints response2 path2 lines2
    (post (setBreakPointsRequest response1 path1 lines1 s)) bps2 ->
  In bp1 bps1 -> In bp2 bps2 ->
  bp_id bp1 < bp_id bp2.
Proof.
  intros H1 H2 Hin1 Hin2.
  destruct (response_identifiers _ _ _ _ _ H1) as (Hlen1 & Hid1 & Hnext).
  destruct (response_identifiers _ _ _ _ _ H2) as (_ & Hid2 & _).
  apply list_elem_of_In, list_elem_of_lookup in Hin1 as [i Hi].
  apply list_elem_of_In, list_elem_of_lookup in Hin2 as [j Hj].
  rewrite (Hid1 _ _ Hi), (Hid2 _ _ Hj), Hnext.
  apply lookup_lt_Some in Hi. lia.
Qed.


Lemma identifiers_increase_across_requests_witness :
  bp_id (mkBreakpoint true 3 1000) < bp_id (mkBreakpoint false 5 1001).
Proof.
  apply (identifiers_increase_across_requests
           (response_of 3 "setBreakpoints") "/u/user.rb" [2]
           (response_of 4 "setBreakpoints") "/u/user.rb" [5]
           (launched true ∅ "/u/user.rb" (file_of five_lines))
           [mkBreakpoint true 3 1000] [mkBreakpoint false 5 1001]).
  - split; reflexivity.
  - split; reflexivity.
  - left; reflexivity.
  - left; reflexivity.
Defined.

Lemma mapM_app_None {A B} (f : A -> option B) pre bad rest rs :
  mapM f pre = Some rs -> f bad = None -> mapM f (pre ++ bad :: rest) = None.
Proof.
  intros _ Hbad. apply mapM_None_2, Exists_app. right. apply Exists_cons_hd, Hbad.
Qed.

Lemma breakpoints_loop_app lines : forall pre rest rs acc s,
  mapM (located (clientLinesStartAt1 s) lines) pre = Some rs ->
  breakpoints_loop lines (pre ++ rest) acc s =
  let r := breakpoints_loop lines rest (acc ++ numbered (_breakpointId s) rs)
             (with_breakpointId (_breakpointId s + Z.of_nat (length rs)) s) in
  mkResult (res r) (post r) (break_writes rs ++ emitted r).
Proof.
  induction pre as [|cl pre IH]; intros rest rs acc s H.
  - cbn in H. injection H as <-. cbn [app numbered length break_writes map].
    rewrite app_nil_r, Z.add_0_r, with_breakpointId_same. cbv zeta.
    symmetry. apply result_eta.
  - cbn in H. destruct (located _ lines cl) as [[v line]|] eqn:Hcl; [|discriminate].
    cbn in H. destruct (mapM _ pre) as [rs'|] eqn:Hpre; [|discriminate].
    injection H as <-. cbn [app breakpoints_loop].
    pose proof (breakpoint_at_located lines cl s) as Hat. rewrite Hcl in Hat.
    rewrite (bind_returned _ _ _ _ _ _ Hat).
    rewrite (IH rest rs' (acc ++ [mkBreakpoint v line (_breakpointId s)])
               (with_breakpointId (_breakpointId s + 1) s) Hpre).
    cbv zeta. cbn [res post emitted numbered length _breakpointId with_breakpointId
                   break_writes map snd].
    rewrite <- !app_assoc. cbn [app].
    replace (_breakpointId s + 1 + Z.of_nat (length rs'))
      with (_breakpointId s + Z.of_nat (S (length rs'))) by lia.
    reflexivity.
Qed.

(** X3. A request with a line number below 1 throws at that line: the
    commands of the lines before it have been written and their identifiers
    taken, but no response is sent and the table is as it was. *)
Theorem request_throws_at_line_below_one response path before bad after s content :
  fs s !! path = Some content ->
  positive_lines (clientLinesStartAt1 s) before = true ->
  toDebugger (clientLinesStartAt1 s) bad <= 0 ->
  exists rs,
    mapM (located (clientLinesStartAt1 s) (JS.split_nl content)) before = Some rs /\
    setBreakPointsRequest response path (before ++ bad :: after) s =
    mkResult (Thrown TypeError)
      (with_breakpointId (_breakpointId s + Z.of_nat (length before)) s)
      (break_writes rs).
Proof.
  intros Hfile Hpos Hbad.
  destruct (positive_lines_located _ (JS.split_nl content) _ Hpos) as [rs Hrs].
  exists rs. split; [exact Hrs|].
  unfold setBreakPointsRequest.
  rewrite (bind_pure _ _ s content s) by (apply readFileSync_found, Hfile).
  apply bind_thrown.
  rewrite (breakpoints_loop_app _ before (bad :: after) rs [] s Hrs). cbv zeta.
  cbn [breakpoints_loop].
  pose proof (breakpoint_at_located (JS.split_nl content) bad
                (with_breakpointId (_breakpointId s + Z.of_nat (length rs)) s)) as Hat.
  cbn [clientLinesStartAt1 with_breakpointId] in Hat.
  rewrite (proj2 (located_None _ content bad) Hbad) in Hat.
  rewrite (bind_thrown _ _ _ _ _ _ Hat). cbn [res post emitted].
  rewrite app_nil_r, (length_mapM _ _ _ Hrs). reflexivity.
Qed.

Lemma request_throws_at_line_below_one_witness :
  exists rs,
    mapM (located true (JS.split_nl (file_of five_lines))) [2; 3] = Some rs /\
    setBreakPointsRequest (response_of 3 "setBreakpoints") "/u/user.rb" ([2; 3] ++ 0 :: [4])
      (launched true ∅ "/u/user.rb" (file_of five_lines)) =
    mkResult (Thrown TypeError)
      (with_breakpointId (1000 + Z.of_nat (length [2; 3]))
         (launched true ∅ "/u/user.rb" (file_of five_lines)))
      (break_writes rs).
Proof.
  apply (request_throws_at_line_below_one (response_of 3 "setBreakpoints") "/u/user.rb"
           [2; 3] 0 [4] (launched true ∅ "/u/user.rb" (file_of five_lines))
           (file_of five_lines)).
  - reflexivity.
  - reflexivity.
  - vm_compute. discriminate.
Defined.



(** ** More on the [data] handler *)





(** A chunk that is appended when no job is pending. *)
Lemma deliver_appended_exact c s :
  is_event c = false -> appends (buffer s) c = true -> jobs s = [] ->
  deliver c s = mkResult (Returned tt) (with_buffer (buffer s +:+ c) s) [].
Proof.
  intros Hev Happ Hidle. rewrite deliver_result, on_data_cases, Hev, Happ.
  cbn [post emitted jobs with_buffer app]. rewrite Hidle.
  rewrite (with_jobs_idle (with_buffer (buffer s +:+ c) s) Hidle). reflexivity.
Qed.


Lemma feed_single c s : feed [c] s = deliver c s.
Proof.
  rewrite feed_cons. cbn [feed ret res post emitted]. rewrite app_nil_r.
  pose proof (deliver_result c s) as H. cbv zeta in H. rewrite H. reflexivity.
Qed.

Lemma feed_after c rest s s1 :
  deliver c s = mkResult (Returned tt) s1 [] -> feed (c :: rest) s = feed rest s1.
Proof.
  intros H. rewrite feed_cons, H. cbn [post emitted app]. apply result_eta.
Qed.



Lemma frames_loop_result s childNodes i frames :
  frames_loop childNodes i frames s =
  mkResult (res (frames_loop childNodes i frames s)) s [].
Proof.
  destruct (frames_loop_quiet s childNodes i frames) as [Hp He].
  destruct (frames_loop childNodes i frames s) as [r p effs].
  cbn [res post emitted] in *. subst. reflexivity.
Qed.

Lemma variables_loop_result s ref childNodes variables :
  variables_loop childNodes ref variables s =
  mkResult (res (variables_loop childNodes ref variables s)) s [].
Proof.
  destruct (variables_loop_quiet s ref childNodes variables) as [Hp He].
  destruct (variables_loop childNodes ref variables s) as [r p effs].
  cbn [res post emitted] in *. subst. reflexivity.
Qed.



(** The continuation of the stack trace, by the result of its loop. *)
Lemma stackTrace_then_result response xml s :
  stackTrace_then response xml s =
  match documentElement xml with
  | None => mkResult (Thrown TypeError) s []
  | Some root =>
      if negb (String.eqb (nodeName_of root) "frames") then mkResult (Returned tt) s []
      else match res (frames_loop (childNodes_of root) 0 [] s) with
           | Returned frames =>
               mkResult (Returned tt) s [SendResponse response (StackFramesBody frames)]
           | Thrown e => mkResult (Thrown e) s []
           end
  end.
Proof.
  unfold stackTrace_then.
  destruct (documentElement xml) as [root|]; cbn [defined]; mstep; [|reflexivity].
  destruct (negb _); [reflexivity|].
  pose proof (frames_loop_result s (childNodes_of root) 0 []) as H.
  destruct (res (frames_loop (childNodes_of root) 0 [] s)) as [frames|e].
  - rewrite (bind_returned _ _ _ _ _ _ H). reflexivity.
  - rewrite (bind_thrown _ _ _ _ _ _ H). reflexivity.
Qed.

Lemma variables_then_result response ref xml s :
  variables_then response ref xml s =
  match documentElement xml with
  | None => mkResult (Thrown TypeError) s []
  | Some root =>
      match res (variables_loop (childNodes_of root) ref [] s) with
      | Returned variables =>
          mkResult (Returned tt) s [SendResponse response (VariablesBody variables)]
      | Thrown e => mkResult (Thrown e) s []
      end
  end.
Proof.
  unfold variables_then.
  destruct (documentElement xml) as [root|]; cbn [defined]; mstep; [|reflexivity].
  pose proof (variables_loop_result s ref (childNodes_of root) []) as H.
  destruct (res (variables_loop (childNodes_of root) ref [] s)) as [vars|e].
  - rewrite (bind_returned _ _ _ _ _ _ H). reflexivity.
  - rewrite (bind_thrown _ _ _ _ _ _ H). reflexivity.
Qed.





(** A continuation answers the response it was registered with, and no
    other. *)
Lemma reaction_answers_own r doc s response body :
  In (SendResponse response body) (emitted (settle (run_reaction r doc) s)) ->
  response = response_of_reaction r.
Proof.
  unfold settle. intros H.
  assert (Hown : forall effs, effs = emitted (run_reaction r doc s) ->
            In (SendResponse response body) (effs ++ [UnhandledRejection]) ->
            response = response_of_reaction r).
  { clear H. intros effs -> Hin. apply in_app_or in Hin as [Hin|[Hin|[]]]; [|discriminate].
    destruct r as [resp|resp ref]; cbn [run_reaction] in Hin.
    - rewrite stackTrace_then_result in Hin.
      destruct (documentElement doc); simpl in Hin; [|contradiction].
      destruct (negb _); simpl in Hin; [contradiction|].
      destruct (res _); simpl in Hin; [|contradiction].
      destruct Hin as [Hin|[]]. injection Hin as <- _. reflexivity.
    - rewrite variables_then_result in Hin.
      destruct (documentElement doc); simpl in Hin; [|contradiction].
      destruct (res _); simpl in Hin; [|contradiction].
      destruct Hin as [Hin|[]]. injection Hin as <- _. reflexivity. }
  destruct (run_reaction r doc s) as [[[]|e] s1 effs] eqn:E; cbn [res emitted] in *.
  - apply (Hown effs eq_refl). apply in_or_app. left. exact H.
  - apply (Hown effs eq_refl). exact H.
Qed.







Lemma resolver_resolve_in k p doc s : resolver k (resolve_in p doc s) = resolver k s.
Proof.
  unfold resolve_in. destruct (promises s !! p) as [cell|]; [|reflexivity].
  destruct (settled cell); destruct k; reflexivity.
Qed.




(** ** A request that is overtaken *)

Lemma request_of_returned k response ref s :
  let p := length (promises s) in
  let s1 := with_promises (promises s ++ [mkPromise None [reaction_of k response ref]])
              (match k with
               | Frames => with_stackFrameLoaded p p s
               | Variables => with_variableLoaded p p s
               end) in
  request_of k response ref s =
  mkResult (Returned tt) s1
    [PromiseNew p; PromiseThen p (reaction_of k response ref);
     SocketWrite (match k with Frames => "where" | Variables => "var local" end +:+ JS.LF)].
Proof.
  destruct k; cbn [request_of reaction_of].
  - apply stackTraceRequest_result.
  - apply variablesRequest_result.
Qed.

Lemma handle_request_result k response ref s :
  jobs s = [] ->
  let p := length (promises s) in
  let s1 := with_promises (promises s ++ [mkPromise None [reaction_of k response ref]])
              (match k with
               | Frames => with_stackFrameLoaded p p s
               | Variables => with_variableLoaded p p s
               end) in
  handle (Request k response ref) s =
  mkResult (Returned tt) s1
    [PromiseNew p; PromiseThen p (reaction_of k response ref);
     SocketWrite (match k with Frames => "where" | Variables => "var local" end +:+ JS.LF)].
Proof.
  intros Hidle p s1. cbn [handle].
  rewrite (bind_returned _ _ _ _ _ _ (request_of_returned k response ref s)).
  rewrite drain_result.
  assert (Hj : jobs s1 = []) by (subst s1; destruct k; exact Hidle).
  fold p. fold s1. rewrite Hj, (with_jobs_idle s1 Hj). reflexivity.
Qed.

Lemma orphan_request p rs k response ref s :
  orphan p rs s ->
  orphan p rs (post (handle (Request k response ref) s)) /\
  existsb (resolves p) (emitted (handle (Request k response ref) s)) = false.
Proof.
  intros (Hidle & (cell & Hcell & Hset & Hrs) & HF & HV).
  rewrite (handle_request_result k response ref s Hidle). cbn [post emitted].
  split; [|reflexivity].
  pose proof (lookup_lt_Some _ _ _ Hcell) as Hlt.
  split; [destruct k; exact Hidle|].
  split.
  - exists cell. split; [|split; assumption].
    cbn [promises with_promises]. rewrite lookup_app_l by exact Hlt.
    destruct k; exact Hcell.
  - destruct k; cbn [resolver stackFrameLoadedPromiseResolve variableLoadedPromiseResolve
                      with_promises with_stackFrameLoaded with_variableLoaded];
      split; first [exact HF | exact HV | lia].
Qed.

Lemma orphan_resolve_in p rs q doc s :
  q <> p ->
  (exists cell, promises s !! p = Some cell /\ settled cell = None /\ reactions cell = rs) ->
  exists cell, promises (resolve_in q doc s) !! p = Some cell /\
               settled cell = None /\ reactions cell = rs.
Proof.
  intros Hq (cell & Hcell & Hset & Hrs). exists cell.
  split; [|split; assumption].
  unfold resolve_in. destruct (promises s !! q) as [c|]; [|exact Hcell].
  destruct (settled c); [exact Hcell|].
  cbn [promises with_jobs with_promises].
  rewrite list_lookup_insert_ne by exact Hq. exact Hcell.
Qed.

Lemma resolver_with_buffer k b s : resolver k (with_buffer b s) = resolver k s.
Proof. destruct k; reflexivity. Qed.

Lemma resolver_with_jobs k js s : resolver k (with_jobs js s) = resolver k s.
Proof. destruct k; reflexivity. Qed.

Lemma orphan_completed p rs k logs chunk s :
  orphan p rs s ->
  let r := completed k (resolver k s) logs chunk s in
  orphan p rs (with_jobs [] (post r)) /\
  existsb (resolves p) (logs ++ [ParseFromString (buffer s +:+ chunk);
                                 PromiseResolve k (resolver k s)
                                   (parser s (buffer s +:+ chunk))]) =
  existsb (resolves p) logs.
Proof.
  intros (Hidle & Hcell & HF & HV) r. subst r. unfold completed. cbn [post].
  assert (Hk : resolver k s <> p) by (destruct k; assumption).
  split.
  - split; [reflexivity|]. split.
    + cbn [promises with_jobs with_buffer].
      change (promises (with_buffer "" ?x)) with (promises x).
      apply orphan_resolve_in; [exact Hk|]. exact Hcell.
    + rewrite !resolver_with_jobs, !resolver_with_buffer, !resolver_resolve_in,
        !resolver_with_buffer. split; assumption.
  - rewrite existsb_app. cbn [existsb resolves].
    apply Nat.eqb_neq in Hk. rewrite Nat.eqb_sym in Hk. rewrite Hk.
    rewrite !orb_false_r. reflexivity.
Qed.

Lemma orphan_with_buffer p rs b s : orphan p rs s -> orphan p rs (with_buffer b s).
Proof.
  intros (Hidle & Hcell & HF & HV).
  split; [exact Hidle|]. split; [exact Hcell|].
  rewrite !resolver_with_buffer. split; assumption.
Qed.

Lemma existsb_resolves_jobs p js s :
  existsb (resolves p) (emitted (run_jobs js s)) = false.
Proof.
  destruct (run_jobs_quiet js s) as (_ & _ & Hq).
  destruct (existsb (resolves p) (emitted (run_jobs js s))) eqn:E; [|reflexivity].
  apply existsb_exists in E as (e & Hin & He).
  rewrite forallb_forall in Hq. apply Hq in Hin.
  destruct e; discriminate.
Qed.

Lemma orphan_idle p rs s : orphan p rs s -> orphan p rs (with_jobs [] s).
Proof. intros H. rewrite with_jobs_idle; [exact H|]. apply H. Qed.

Lemma orphan_chunk p rs chunk s :
  orphan p rs s ->
  orphan p rs (post (handle (Chunk chunk) s)) /\
  existsb (resolves p) (emitted (handle (Chunk chunk) s)) = false.
Proof.
  intros H. cbn [handle]. rewrite deliver_result. cbn [post emitted].
  rewrite existsb_app, existsb_resolves_jobs, orb_false_r.
  rewrite on_data_cases.
  destruct (is_event chunk); [split; [apply orphan_idle; exact H|reflexivity]|].
  destruct (appends (buffer s) chunk);
    [split; [apply orphan_idle, orphan_with_buffer; exact H|reflexivity]|].
  destruct (JS.endsWith "</frames>" chunk).
  { destruct (orphan_completed p rs Frames [] chunk s H) as [Ho He].
    split; [exact Ho|]. unfold completed. cbn [emitted].
    cbn [resolver] in He. rewrite He. reflexivity. }
  destruct (JS.endsWith "</variables>" chunk).
  { destruct (orphan_completed p rs Variables
                [ConsoleLog ("variables" +:+ JS.LF); ConsoleLog (buffer s +:+ chunk)]
                chunk s H) as [Ho He].
    split; [exact Ho|]. unfold completed. cbn [emitted].
    cbn [resolver] in He. rewrite He. reflexivity. }
  destruct (JS.endsWith "</breakpoints>" chunk);
    split; first [apply orphan_idle, orphan_with_buffer; exact H
                 | apply orphan_idle; exact H | reflexivity].
Qed.

Lemma handle_returns i s : res (handle i s) = Returned tt.
Proof.
  destruct i as [k response ref|chunk]; cbn [handle].
  - rewrite (bind_returned _ _ _ _ _ _ (request_of_returned k response ref s)).
    rewrite drain_result. reflexivity.
  - rewrite deliver_result. reflexivity.
Qed.

Lemma handle_all_cons i rest s :
  let s1 := post (handle i s) in
  handle_all (i :: rest) s =
  mkResult (res (handle_all rest s1)) (post (handle_all rest s1))
    (emitted (handle i s) ++ emitted (handle_all rest s1)).
Proof.
  intros s1. subst s1. cbn [handle_all].
  pose proof (handle_returns i s) as Hr.
  destruct (handle i s) as [[[]|e] s1 effs] eqn:E; [|discriminate Hr].
  rewrite (bind_returned _ _ _ _ _ _ E). reflexivity.
Qed.

(** X10. No run of these handlers throws.  Whatever stack-trace and variables
    requests and whatever chunks arrive, in any order and from any session,
    every handler returns: a continuation that fails on a malformed reply
    ends as a rejection that nobody handles, not as an exception of the
    [data] handler. *)
Theorem handlers_never_throw : forall inputs s, res (handle_all inputs s) = Returned tt.
Proof.
  induction inputs as [|i rest IH]; intros s; [reflexivity|].
  rewrite handle_all_cons. apply IH.
Qed.

Lemma orphan_handle p rs i s :
  orphan p rs s ->
  orphan p rs (post (handle i s)) /\
  existsb (resolves p) (emitted (handle i s)) = false.
Proof.
  intros H. destruct i as [k response ref|chunk].
  - apply orphan_request, H.
  - apply orphan_chunk, H.
Qed.

Lemma orphan_handle_all p rs : forall inputs s,
  orphan p rs s ->
  orphan p rs (post (handle_all inputs s)) /\
  existsb (resolves p) (emitted (handle_all inputs s)) = false.
Proof.
  induction inputs as [|i rest IH]; intros s H.
  - split; [exact H|reflexivity].
  - destruct (orphan_handle p rs i s H) as (Ho & He).
    rewrite handle_all_cons. cbn [post emitted].
    destruct (IH _ Ho) as (Ho' & He').
    split; [exact Ho'|].
    rewrite existsb_app, He, He'. reflexivity.
Qed.

Lemma handle_all_app : forall a b s,
  handle_all (a ++ b) s =
  mkResult (res (handle_all b (post (handle_all a s))))
    (post (handle_all b (post (handle_all a s))))
    (emitted (handle_all a s) ++ emitted (handle_all b (post (handle_all a s)))).
Proof.
  induction a as [|i a IH]; intros b s.
  - cbn [app handle_all ret post emitted]. symmetry. apply result_eta.
  - change ((i :: a) ++ b) with (i :: (a ++ b)).
    rewrite !handle_all_cons, IH. cbn [res post emitted]. rewrite app_assoc. reflexivity.
Qed.

Lemma pending_for_request k p rs k' response ref s :
  pending_for k p rs s ->
  pending_for k p rs (post (handle (Request k' response ref) s)).
Proof.
  intros (Hidle & (cell & Hcell & Hset & Hrs) & Hother).
  rewrite (handle_request_result k' response ref s Hidle). cbn [post].
  pose proof (lookup_lt_Some _ _ _ Hcell) as Hlt.
  split; [destruct k'; exact Hidle|]. split.
  - exists cell. split; [|split; assumption].
    cbn [promises with_promises]. rewrite lookup_app_l by exact Hlt.
    destruct k'; exact Hcell.
  - destruct k, k'; cbn [other_kind resolver stackFrameLoadedPromiseResolve
                          variableLoadedPromiseResolve with_promises
                          with_stackFrameLoaded with_variableLoaded] in *;
      first [exact Hother | lia].
Qed.

Lemma pending_for_with_buffer k p rs b s :
  pending_for k p rs s -> pending_for k p rs (with_buffer b s).
Proof.
  intros (Hidle & Hcell & Hother).
  split; [exact Hidle|]. split; [exact Hcell|].
  rewrite resolver_with_buffer. exact Hother.
Qed.

Lemma pending_for_idle k p rs s : pending_for k p rs s -> pending_for k p rs (with_jobs [] s).
Proof. intros H. rewrite with_jobs_idle; [exact H|]. apply H. Qed.

Lemma pending_for_completed k p rs kc logs chunk s :
  pending_for k p rs s ->
  existsb (resolves p) (emitted (completed kc (resolver kc s) logs chunk s)) = false ->
  pending_for k p rs (with_jobs [] (post (completed kc (resolver kc s) logs chunk s))).
Proof.
  intros (Hidle & Hcell & Hother). unfold completed. cbn [post emitted].
  rewrite existsb_app. intros He. apply orb_false_iff in He as [_ He].
  cbn [existsb resolves] in He. rewrite !orb_false_r in He.
  apply Nat.eqb_neq in He.
  split; [reflexivity|]. split.
  - cbn [promises with_jobs with_buffer].
    change (promises (with_buffer "" ?x)) with (promises x).
    apply orphan_resolve_in; [congruence|]. exact Hcell.
  - rewrite !resolver_with_jobs, !resolver_with_buffer, !resolver_resolve_in,
      !resolver_with_buffer. exact Hother.
Qed.

Lemma pending_for_chunk k p rs chunk s :
  pending_for k p rs s ->
  existsb (resolves p) (emitted (handle (Chunk chunk) s)) = false ->
  pending_for k p rs (post (handle (Chunk chunk) s)).
Proof.
  intros H. cbn [handle]. rewrite deliver_result. cbn [post emitted].
  rewrite existsb_app, existsb_resolves_jobs, orb_false_r.
  rewrite on_data_cases.
  destruct (is_event chunk); [intros _; apply pending_for_idle; exact H|].
  destruct (appends (buffer s) chunk);
    [intros _; apply pending_for_idle, pending_for_with_buffer; exact H|].
  destruct (JS.endsWith "</frames>" chunk).
  { exact (pending_for_completed k p rs Frames [] chunk s H). }
  destruct (JS.endsWith "</variables>" chunk).
  { exact (pending_for_completed k p rs Variables
             [ConsoleLog ("variables" +:+ JS.LF); ConsoleLog (buffer s +:+ chunk)]
             chunk s H). }
  destruct (JS.endsWith "</breakpoints>" chunk); intros _;
    first [apply pending_for_idle, pending_for_with_buffer; exact H
          | apply pending_for_idle; exact H].
Qed.

Lemma pending_for_handle_all k p rs : forall inputs s,
  pending_for k p rs s ->
  existsb (resolves p) (emitted (handle_all inputs s)) = false ->
  pending_for k p rs (post (handle_all inputs s)).
Proof.
  induction inputs as [|i rest IH]; intros s H He; [exact H|].
  rewrite handle_all_cons in He |- *. cbn [post emitted] in He |- *.
  rewrite existsb_app in He. apply orb_false_iff in He as [He1 He2].
  apply IH; [|exact He2].
  destruct i as [k' response ref|chunk].
  - apply pending_for_request, H.
  - apply pending_for_chunk; assumption.
Qed.

(** The promise of a request that has just been made. *)
Lemma pending_for_fresh k response ref s :
  jobs s = [] ->
  (forall k', (resolver k' s < length (promises s))%nat) ->
  pending_for k (length (promises s)) [reaction_of k response ref]
    (post (handle (Request k response ref) s)).
Proof.
  intros Hidle Hwf.
  rewrite (handle_request_result k response ref s Hidle). cbn [post].
  split; [destruct k; exact Hidle|]. split.
  - exists (mkPromise None [reaction_of k response ref]).
    split; [|split; reflexivity].
    cbn [promises with_promises].
    destruct k; cbn [promises with_stackFrameLoaded with_variableLoaded];
      apply list_lookup_middle; reflexivity.
  - pose proof (Hwf (other_kind k)) as Hlt.
    destruct k; cbn [other_kind resolver stackFrameLoadedPromiseResolve
                      variableLoadedPromiseResolve with_promises
                      with_stackFrameLoaded with_variableLoaded] in *; lia.
Qed.

(** A request of the same kind takes the resolver away. *)
Lemma orphan_after_request k p rs response ref s :
  pending_for k p rs s ->
  orphan p rs (post (handle (Request k response ref) s)).
Proof.
  intros (Hidle & (cell & Hcell & Hset & Hrs) & Hother).
  rewrite (handle_request_result k response ref s Hidle). cbn [post].
  pose proof (lookup_lt_Some _ _ _ Hcell) as Hlt.
  split; [destruct k; exact Hidle|]. split.
  - exists cell. split; [|split; assumption].
    cbn [promises with_promises]. rewrite lookup_app_l by exact Hlt.
    destruct k; exact Hcell.
  - destruct k; cbn [other_kind resolver stackFrameLoadedPromiseResolve
                      variableLoadedPromiseResolve with_promises
                      with_stackFrameLoaded with_variableLoaded] in *;
      split; first [exact Hother | lia].
Qed.

(** X9. A request that is overtaken is never resolved.  A request is made;
    then come any requests and chunks that do not resolve its promise (its
    reply has not been completed); then a second request for the same kind
    of document.  From there on the session has forgotten the resolver of
    the first promise: whatever requests and chunks follow, that promise is
    never resolved and its continuation is still waiting at the end. *)
Theorem overtaken_request_is_never_resolved k r1 ref1 between r2 ref2 inputs s :
  jobs s = [] ->
  (forall k', (resolver k' s < length (promises s))%nat) ->
  let p := length (promises s) in
  let s1 := post (handle (Request k r1 ref1) s) in
  existsb (resolves p) (emitted (handle_all between s1)) = false ->
  let s2 := post (handle_all (between ++ [Request k r2 ref2]) s1) in
  existsb (resolves p) (emitted (handle_all inputs s2)) = false /\
  waiting p (post (handle_all inputs s2)) = [reaction_of k r1 ref1].
Proof.
  intros Hidle Hwf p s1 Hbetween s2.
  assert (Ho : orphan p [reaction_of k r1 ref1] s2).
  { subst s2. rewrite handle_all_app. cbn [post].
    rewrite handle_all_cons. cbn [post handle_all ret].
    apply orphan_after_request.
    apply pending_for_handle_all; [|exact Hbetween].
    apply pending_for_fresh; assumption. }
  destruct (orphan_handle_all p _ inputs s2 Ho) as (Ho' & He).
  split; [exact He|].
  destruct Ho' as (_ & (cell & Hcell & Hset & Hrs) & _).
  unfold waiting. rewrite Hcell, Hset. exact Hrs.
Qed.

Lemma overtaken_request_is_never_resolved_witness :
  existsb (resolves 2)
    (emitted (handle_all
       [Chunk "<frame no='2' file='/app/user.rb' line='4' />"; Chunk "</frames>"]
       (post (handle_all
          ([Chunk "<frames>";
            Chunk "<frame no='1' file='/app/user.rb' line='2' current='true' />"]
           ++ [Request Frames (response_of 10 "stackTrace") 0])
          (post (handle (Request Frames (response_of 9 "stackTrace") 0) greeter)))))) = false /\
  waiting 2
    (post (handle_all
       [Chunk "<frame no='2' file='/app/user.rb' line='4' />"; Chunk "</frames>"]
       (post (handle_all
          ([Chunk "<frames>";
            Chunk "<frame no='1' file='/app/user.rb' line='2' current='true' />"]
           ++ [Request Frames (response_of 10 "stackTrace") 0])
          (post (handle (Request Frames (response_of 9 "stackTrace") 0) greeter)))))) =
  [reaction_of Frames (response_of 9 "stackTrace") 0].
Proof.
  apply (overtaken_request_is_never_resolved Frames (response_of 9 "stackTrace") 0
           [Chunk "<frames>";
            Chunk "<frame no='1' file='/app/user.rb' line='2' current='true' />"]
           (response_of 10 "stackTrace") 0
           [Chunk "<frame no='2' file='/app/user.rb' line='4' />"; Chunk "</frames>"]
           greeter).
  - reflexivity.
  - intros k'. destruct k'; vm_compute; lia.
  - vm_compute. reflexivity.
Defined.

(** ** The reply that lists breakpoints *)

Lemma feed_events : forall children rest s,
  forallb is_event children = true -> jobs s = [] ->
  feed (children ++ rest) s =
  mkResult (res (feed rest s)) (post (feed rest s))
    (map stopped_event children ++ emitted (feed rest s)).
Proof.
  induction children as [|c cs IH]; intros rest s Hall Hidle.
  - cbn [app map]. symmetry. apply result_eta.
  - cbn [forallb] in Hall. apply andb_true_iff in Hall as [Hc Hcs].
    change ((c :: cs) ++ rest) with (c :: (cs ++ rest)).
    rewrite feed_cons, (deliver_event c s Hc Hidle). cbn [post emitted].
    rewrite (IH rest s Hcs Hidle). reflexivity.
Qed.

(** X12. A list of breakpoints is never parsed.  When a document with the
    root [breakpoints] arrives one element per chunk, the root start tag is
    buffered, each [breakpoint] element is reported to the client as a stop
    at a breakpoint, and the root end tag empties the buffer: nothing is
    parsed, and what the buffer held before is lost. *)
Theorem breakpoints_listing_is_reported_as_stops opening children closing s :
  jobs s = [] ->
  JS.startsWith "<breakpoints>" opening = true ->
  JS.endsWith "</breakpoints>" opening = false ->
  forallb (JS.lineMatch "<breakpoint " "/>") children = true ->
  JS.startsWith "</" closing = true ->
  JS.endsWith "</breakpoints>" closing = true ->
  feed (opening :: children ++ [closing]) s =
  mkResult (Returned tt) (with_buffer "" s)
    (map (fun _ => SendEvent (StoppedEvent "breakpoint" THREAD_ID)) children).
Proof.
  intros Hidle Hos Hoe Hch Hcs Hce.
  assert (Hev : is_event opening = false).
  { unfold is_event. settle_tests. reflexivity. }
  assert (Happ : appends (buffer s) opening = true).
  { unfold appends. settle_tests. cbn [negb andb orb].
    rewrite ?andb_false_r. reflexivity. }
  rewrite (feed_after _ _ _ _ (deliver_appended_exact opening s Hev Happ Hidle)).
  set (s1 := with_buffer (buffer s +:+ opening) s).
  assert (Hall : forallb is_event children = true).
  { apply forallb_forall. intros c Hin. rewrite forallb_forall in Hch.
    unfold is_event. rewrite (Hch c Hin). reflexivity. }
  rewrite (feed_events children [closing] s1 Hall Hidle).
  rewrite feed_single, deliver_result, on_data_cases.
  assert (Hev' : is_event closing = false).
  { unfold is_event. settle_tests. reflexivity. }
  assert (Happ' : appends (buffer s1) closing = false).
  { unfold appends. settle_tests. rewrite ?andb_false_r. reflexivity. }
  rewrite Hev', Happ'.
  rewrite (endsWith_disjoint _ "</frames>" _ Hce eq_refl).
  rewrite (endsWith_disjoint _ "</variables>" _ Hce eq_refl), Hce.
  cbn [res post emitted].
  change (jobs (with_buffer "" s1)) with (jobs s). rewrite Hidle.
  cbn [run_jobs ret emitted app]. rewrite app_nil_r.
  f_equal.
  - subst s1. destruct s; cbn in Hidle; subst; reflexivity.
  - apply map_ext_in. intros c Hin. rewrite forallb_forall in Hch.
    unfold stopped_event, stopped_reason. rewrite (Hch c Hin). reflexivity.
Qed.

Lemma breakpoints_listing_is_reported_as_stops_witness :
  feed ("<breakpoints>"
        :: ["<breakpoint n='1' file='/app/user.rb' line='2' />";
            "<breakpoint n='2' file='/app/user.rb' line='4' />"]
        ++ ["</breakpoints>"]) greeter =
  mkResult (Returned tt) (with_buffer "" greeter)
    (map (fun _ => SendEvent (StoppedEvent "breakpoint" THREAD_ID))
       ["<breakpoint n='1' file='/app/user.rb' line='2' />";
        "<breakpoint n='2' file='/app/user.rb' line='4' />"]).
Proof.
  apply (breakpoints_listing_is_reported_as_stops "<breakpoints>"
           ["<breakpoint n='1' file='/app/user.rb' line='2' />";
            "<breakpoint n='2' file='/app/user.rb' line='4' />"]
           "</breakpoints>" greeter); reflexivity.
Defined.

(** ** Two fragmentations of one reply *)



(** ** The answers of the two translations *)

Lemma variables_loop_mapM s ref : forall childNodes variables,
  res (variables_loop childNodes ref variables s) =
  match mapM (variable_of ref) childNodes with
  | Some vs => Returned (variables ++ vs)
  | None => Thrown TypeError
  end.
Proof.
  induction childNodes as [|node rest IH]; intros variables.
  - cbn [variables_loop mapM mret option_ret]. rewrite app_nil_r. reflexivity.
  - cbn [variables_loop mapM]. destruct node as [name attrs children|text];
      cbn [attributes_of variable_of]; mstep; [|reflexivity].
    destruct (getNamedItem attrs "name") as [nm|]; cbn [defined mbind option_bind];
      mstep; [|reflexivity].
    destruct (getNamedItem attrs "value") as [vl|]; cbn [defined mbind option_bind];
      mstep; [|reflexivity].
    rewrite IH.
    destruct (mapM (variable_of ref) rest) as [vs|];
      cbn [mbind option_bind mret option_ret]; [|reflexivity].
    rewrite <- app_assoc. reflexivity.
Qed.

(** X15. The answer of a variables request is all or nothing.  The
    response carries one variable for each child of the root, in order, each
    with the reference of the request; if one child is a text node or lacks
    a [name] or a [value], or the document has no root, nothing is answered
    and the rejection is not handled by anyone. *)
Theorem variables_answer_is_all_or_nothing response ref xml s :
  emitted (settle (run_reaction (VariablesThen response ref) xml) s) =
  answered response
    (root ← documentElement xml;
     VariablesBody <$> mapM (variable_of ref) (childNodes_of root)).
Proof.
  unfold settle. cbn [run_reaction].
  rewrite variables_then_result.
  destruct (documentElement xml) as [root|]; [|reflexivity].
  cbn [mbind option_bind].
  rewrite (variables_loop_mapM s ref (childNodes_of root) []).
  destruct (mapM (variable_of ref) (childNodes_of root)) as [vs|]; reflexivity.
Qed.

Lemma frames_loop_frames_of s : forall nodes i frames,
  res (frames_loop nodes i frames s) =
  match frames_of s i nodes with
  | Some fs => Returned (frames ++ fs)
  | None => Thrown TypeError
  end.
Proof.
  induction nodes as [|node rest IH]; intros i frames.
  - cbn [frames_loop frames_of]. rewrite app_nil_r. reflexivity.
  - cbn [frames_loop frames_of].
    destruct node as [name attrs children|text];
      cbn [attributes_of file_basename line_number]; mstep; [|reflexivity].
    destruct (getNamedItem attrs "file") as [f|];
      cbn [defined fmap option_fmap option_map mbind option_bind]; mstep; [|reflexivity].
    unfold is_internal.
    destruct (_ || _); [rewrite app_nil_r; reflexivity|].
    destruct (getNamedItem attrs "line") as [lv|];
      cbn [defined mbind option_bind]; mstep; [|reflexivity].
    destruct (JS.to_number lv) as [n|]; cbn [defined mbind option_bind]; mstep;
      [|reflexivity].
    unfold convertDebuggerLineToClient, label_of, toClient. mstep.
    destruct (JS.at_index _ _) as [text|]; cbn [defined mbind option_bind]; mstep;
      [|reflexivity].
    rewrite IH.
    destruct (frames_of s (i + 1) rest) as [fs|]; cbn [mbind option_bind]; [|reflexivity].
    rewrite <- app_assoc. reflexivity.
Qed.

(** X13. The answer of a stack-trace request.  A reply whose root is not
    [frames] is dropped without a word: no response, no error.  Otherwise
    the response carries the frames before the first internal one, or, when
    one of them cannot be built (a text node, no [file], or a [line] that
    unary plus does not read as an integer [n] with an element of the
    cached lines at index [convertDebuggerLineToClient n - 1]), nothing is
    answered and the rejection is not handled by anyone. *)
Theorem stack_trace_answer response xml s :
  emitted (settle (run_reaction (StackTraceThen response) xml) s) =
  match documentElement xml with
  | None => [UnhandledRejection]
  | Some root =>
      if String.eqb (nodeName_of root) "frames" then
        answered response (StackFramesBody <$> frames_of s 0 (childNodes_of root))
      else []
  end.
Proof.
  unfold settle. cbn [run_reaction].
  rewrite stackTrace_then_result.
  destruct (documentElement xml) as [root|]; [|reflexivity].
  destruct (String.eqb (nodeName_of root) "frames"); cbn [negb]; [|reflexivity].
  rewrite (frames_loop_frames_of s (childNodes_of root) 0 []).
  destruct (frames_of s 0 (childNodes_of root)) as [fs|]; reflexivity.
Qed.

Lemma frames_of_spec s : forall nodes i frames,
  frames_of s i nodes = Some frames ->
  (length frames <= length nodes)%nat /\
  forall j f, frames !! j = Some f ->
    sf_id f = i + Z.of_nat j /\
    sf_source f = program_source s /\
    sf_column f = 0 /\
    exists node bn n text,
      nodes !! j = Some node /\
      file_basename node = Some bn /\ is_internal bn = false /\
      line_number node = Some n /\
      label_of s n = Some text /\
      sf_name f = JS.trim text /\
      sf_line f = toClient (clientLinesStartAt1 s) n.
Proof.
  induction nodes as [|node rest IH]; intros i frames H.
  - injection H as <-. split; [reflexivity|]. intros j f Hj. discriminate Hj.
  - cbn [frames_of] in H.
    destruct (file_basename node) as [bn|] eqn:Hbn; cbn [mbind option_bind] in H;
      [|discriminate].
    destruct (is_internal bn) eqn:Hint.
    { injection H as <-. split; [cbn; lia|]. intros j f Hj. discriminate Hj. }
    destruct (line_number node) as [n|] eqn:Hn; cbn [mbind option_bind] in H; [|discriminate].
    destruct (label_of s n) as [text|] eqn:Ht; cbn [mbind option_bind] in H; [|discriminate].
    destruct (frames_of s (i + 1) rest) as [fs|] eqn:Hfs; cbn [mbind option_bind] in H;
      [|discriminate].
    injection H as <-.
    destruct (IH _ _ Hfs) as [Hlen Hall].
    split; [cbn [length]; lia|].
    intros [|j] f Hj.
    + injection Hj as <-. cbn [frame_at sf_id sf_source sf_column sf_name sf_line].
      split; [lia|]. split; [reflexivity|]. split; [reflexivity|].
      exists node, bn, n, text. repeat split; assumption.
    + destruct (Hall j f Hj) as (Hid & Hsrc & Hcol & node' & bn' & n' & text' & Hnode & H').
      split; [lia|]. split; [exact Hsrc|]. split; [exact Hcol|].
      exists node', bn', n', text'. split; [exact Hnode|exact H'].
Qed.

(** X14. Every frame is attributed to the program.  In any response to a
    stack-trace request the frames are numbered from 0 in the order of the
    children of the root, at column 0; each stands for a child whose file is
    not internal and whose [line] unary plus reads as an integer [n]; it
    names the launched program as its source, whatever file the debugger
    reported, its line is [convertDebuggerLineToClient n] and its label is
    the trimmed element of the cached lines of the program at index
    [convertDebuggerLineToClient n - 1]. *)
Theorem every_frame_names_the_program response response' xml s frames :
  In (SendResponse response' (StackFramesBody frames))
     (emitted (settle (run_reaction (StackTraceThen response) xml) s)) ->
  response' = response /\
  forall j f, frames !! j = Some f ->
    sf_id f = Z.of_nat j /\
    sf_source f = program_source s /\
    sf_column f = 0 /\
    exists root node bn n text,
      documentElement xml = Some root /\
      childNodes_of root !! j = Some node /\
      file_basename node = Some bn /\ is_internal bn = false /\
      line_number node = Some n /\
      label_of s n = Some text /\
      sf_name f = JS.trim text /\
      sf_line f = toClient (clientLinesStartAt1 s) n.
Proof.
  unfold settle. cbn [run_reaction].
  rewrite stackTrace_then_result.
  destruct (documentElement xml) as [root|]; [|intros [H|[]]; discriminate H].
  destruct (String.eqb (nodeName_of root) "frames"); cbn [negb]; [|intros []].
  rewrite (frames_loop_frames_of s (childNodes_of root) 0 []).
  destruct (frames_of s 0 (childNodes_of root)) as [fs|] eqn:Hfs;
    [|intros [H|[]]; discriminate H].
  intros [H|[]]. injection H as <- <-. split; [reflexivity|].
  destruct (frames_of_spec s _ _ _ Hfs) as [_ Hall].
  intros j f Hj.
  destruct (Hall j f Hj) as (Hid & Hsrc & Hcol & node & bn & n & text & Hnode & H').
  split; [lia|]. split; [exact Hsrc|]. split; [exact Hcol|].
  exists root, node, bn, n, text. split; [reflexivity|]. split; [exact Hnode|exact H'].
Qed.

Lemma every_frame_names_the_program_witness :
  In (SendResponse (response_of 9 "stackTrace")
        (StackFramesBody [frame_at greeter 0 2 "  puts 'hi'"; frame_at greeter 1 4 "greet"]))
     (emitted (settle (run_reaction (StackTraceThen (response_of 9 "stackTrace"))
                         frames_of_greeter) greeter)) /\
  (response_of 9 "stackTrace" = response_of 9 "stackTrace" /\
   forall j f,
     [frame_at greeter 0 2 "  puts 'hi'"; frame_at greeter 1 4 "greet"] !! j = Some f ->
     sf_id f = Z.of_nat j /\
     sf_source f = program_source greeter /\
     sf_column f = 0 /\
     exists root node bn n text,
       documentElement frames_of_greeter = Some root /\
       childNodes_of root !! j = Some node /\
       file_basename node = Some bn /\ is_internal bn = false /\
       line_number node = Some n /\
       label_of greeter n = Some text /\
       sf_name f = JS.trim text /\
       sf_line f = toClient (clientLinesStartAt1 greeter) n).
Proof.
  assert (H : In (SendResponse (response_of 9 "stackTrace")
                    (StackFramesBody [frame_at greeter 0 2 "  puts 'hi'";
                                      frame_at greeter 1 4 "greet"]))
                 (emitted (settle (run_reaction (StackTraceThen (response_of 9 "stackTrace"))
                                     frames_of_greeter) greeter)))
    by (vm_compute; left; reflexivity).
  split; [exact H|].
  exact (every_frame_names_the_program _ _ _ _ _ H).
Defined.

(** ** Examples *)

(** The request and its reply together: the document reaches the
    continuation of the request, which answers with the two frames of the
    program. *)
Example stack_trace_round_trip :
  emitted ((stackTraceRequest (response_of 9 "stackTrace") ;; feed frames_chunks) greeter) =
  [PromiseNew 2;
   PromiseThen 2 (StackTraceThen (response_of 9 "stackTrace"));
   SocketWrite ("where" +:+ JS.LF);
   ParseFromString (JS.concat frames_chunks);
   PromiseResolve Frames 2 (XML.parse (JS.concat frames_chunks));
   SendResponse (response_of 9 "stackTrace")
     (StackFramesBody [frame_at greeter 0 2 "  puts 'hi'"; frame_at greeter 1 4 "greet"])].
Proof. reflexivity. Qed.

(** A cut inside an element loses the element: the two middle chunks match
    no pattern and the document that is parsed has no frame. *)
Example cut_inside_an_element :
  reassembly (emitted (feed ["<frames>"; "<frame no='1' fi"; "le='/app/user.rb' line='2'/>";
                             "</frames>"] greeter_waiting)) =
  [ParseFromString "<frames></frames>";
   PromiseResolve Frames 2 (XML.parse "<frames></frames>")].
Proof. reflexivity. Qed.

Example trim_example : JS.trim "  +b  " = "+b" /\ JS.trim ("lazy" +:+ JS.LF) = "lazy".
Proof. split; reflexivity. Qed.

Example split_example :
  JS.split_nl ("a" +:+ JS.LF +:+ JS.LF +:+ "+b" +:+ JS.LF) = ["a"; ""; "+b"; ""].
Proof. reflexivity. Qed.

Example indexOf_example :
  JS.indexOf "so lazy" "lazy" = 3 /\ JS.indexOf "abc" "lazy" = -1 /\ JS.indexOf "" "" = 0.
Proof. repeat split; reflexivity. Qed.

Example number_example :
  JS.number_to_string 12 = "12" /\ JS.number_to_string (-3) = "-3" /\
  JS.to_number " 42 " = Some 42 /\ JS.to_number "4x" = None.
Proof. repeat split; vm_compute; reflexivity. Qed.

(** The numeral forms of unary plus, and the Numbers that are no integer. *)
Example to_number_example :
  map JS.to_number ["2.0"; "2."; "1e0"; "0x2"; "0b10"; "20e-1"; "+2"; ""; "-0"] =
    [Some 2; Some 2; Some 1; Some 2; Some 2; Some 2; Some 2; Some 0; Some 0] /\
  map JS.to_number ["2.5"; "."; "1e"; "-0x2"; "Infinity"; "1e400"; "2 3"; "0x"] =
    [None; None; None; None; None; None; None; None] /\
  JS.to_number "2.0000000000000000000001" = Some 2 /\
  JS.to_number "9007199254740993" = Some 9007199254740992.
Proof. repeat split; vm_compute; reflexivity. Qed.

Example number_to_string_example :
  JS.number_to_string 9007199254740992 = "9007199254740992" /\
  JS.number_to_string (2 ^ 60) = "1152921504606847000" /\
  JS.number_to_string (10 ^ 21) = "1e+21" /\
  JS.number_to_string (2 ^ 70) = "1.1805916207174113e+21".
Proof. repeat split; vm_compute; reflexivity. Qed.

Example basename_example :
  JS.basename "/usr/lib/ruby-debug-ide.rb" = "ruby-debug-ide.rb" /\
  JS.basename "a/b//" = "b" /\ JS.basename "x" = "x".
Proof. repeat split; reflexivity. Qed.

Example test_example :
  JS.test (JS.Line "<breakpoint " "/>") "<breakpoint file='a.rb' line='3' threadId='1'/>" = true /\
  JS.test (JS.Line "<frame " "/>") "<frames>" = false /\
  JS.test (JS.Line "<variable " ">") ("<variable a" +:+ JS.LF +:+ "b>") = false /\
  JS.test (JS.Ends "</frames>") "<frame no='1'/></frames>" = true /\
  JS.test (JS.Starts "<frames>") "<frames><frame no='1'/>" = true.
Proof. repeat split; reflexivity. Qed.

Example parse_example :
  XML.parse "<frames><frame no='1' file='/app/user.rb' line='2' /></frames>" =
  mkXMLDocument (Some (Element "frames" []
    [Element "frame" [("no", "1"); ("file", "/app/user.rb"); ("line", "2")] []])).
Proof. reflexivity. Qed.
